(** * Web3Auth / Algorand adapter: account derivation, signers and the amount codec

    A shallow embedding of [algorandAdapter.ts] and [utils.ts] of the
    [@tokenizerwa/web3auth-algorand] package, with the properties of its
    specification stated over the embedded functions.

    - JavaScript strings are sequences of code units, here [list ascii]
      (code units U+0000..U+00FF);
    - [bigint] values are [Z]; a number is [NaN], an infinity or the
      rational it is equal to, and what the engine does with numbers
      ([Number.prototype.toString], [ToNumber] on strings and objects) is
      a parameter of the definitions that use it;
    - a [throw] is the [Throw] constructor of [completion];
    - calls into the host (the Web3Auth provider, algosdk signing) are
      recorded in a trace, so that "no request was issued" and "signed in
      input order" are statements about that trace. *)

From Stdlib Require Import Ascii String List ZArith QArith Lia Bool.
From Stdlib Require Import DecimalString DecimalPos DecimalZ.
Import ListNotations.

Local Open Scope string_scope.
Local Open Scope list_scope.
Local Open Scope Z_scope.

(* ================================================================= *)
(** ** JavaScript values used by the package *)

(** A JavaScript string, as its sequence of code units. *)
Definition jsstring := list ascii.

(** String literals are written ["..."] and read as [jsstring]. *)
Coercion list_ascii_of_string : string >-> list.

(** What a [throw] carries: an [Error] object with its message, or any
    other value ([error instanceof Error] tells them apart). *)
Inductive thrown : Type :=
| JsError (message : jsstring)
| JsNonError (value : jsstring).

(** The outcome of running a function body. *)
Inductive completion (A : Type) : Type :=
| Return (a : A)
| Throw (e : thrown).
Arguments Return {A} a.
Arguments Throw {A} e.

(** A JavaScript number: [NaN], an infinity, or a finite number, given
    by the rational it is equal to. *)
Inductive js_number : Type :=
| NaN
| Infinity (negative : bool)
| Finite (q : Q).

(** The integer number [n]. *)
Definition integer (n : Z) : js_number := Finite (inject_Z n).

Definition bind {A B} (c : completion A) (k : A -> completion B) : completion B :=
  match c with
  | Return a => k a
  | Throw e => Throw e
  end.

Declare Scope js_scope.
Delimit Scope js_scope with js.
Notation "'let*' x ':=' c 'in' k" := (bind c (fun x => k))
  (at level 10, x name, c at level 100, k at level 200) : js_scope.

(* ================================================================= *)
(** ** String primitives: [trim], [split], [padStart], [padEnd], [slice] *)

Module JsString.

Definition code (c : ascii) : N := N_of_ascii c.

(** [\d] of a regular expression without the [u] flag: [0-9]. *)
Definition is_digit (c : ascii) : bool :=
  ((48 <=? code c) && (code c <=? 57))%N.

(** WhiteSpace and LineTerminator code units below U+0100: TAB, LF, VT,
    FF, CR, SPACE and NO-BREAK SPACE. *)
Definition is_space (c : ascii) : bool :=
  (((9 <=? code c) && (code c <=? 13)) || (code c =? 32) || (code c =? 160))%N.

Fixpoint trimStart (s : jsstring) : jsstring :=
  match s with
  | c :: t => if is_space c then trimStart t else s
  | [] => []
  end.

Definition trimEnd (s : jsstring) : jsstring := rev (trimStart (rev s)).

(** [String.prototype.trim] *)
Definition trim (s : jsstring) : jsstring := trimEnd (trimStart s).

(** [s.split(sep)] for a one-character separator. *)
Fixpoint split (sep : ascii) (s : jsstring) : list jsstring :=
  match s with
  | [] => [[]]
  | c :: t =>
      if Ascii.eqb c sep then [] :: split sep t
      else match split sep t with
           | h :: r => (c :: h) :: r
           | [] => [[c]]
           end
  end.

(** [s.padEnd(n, fill)] and [s.padStart(n, fill)] for a one-character
    filler; a target length below the length of [s] (also a negative
    one) leaves [s] as it is. *)
Definition padEnd (s : jsstring) (n : Z) (fill : ascii) : jsstring :=
  s ++ repeat fill (Z.to_nat n - length s).

Definition padStart (s : jsstring) (n : Z) (fill : ascii) : jsstring :=
  repeat fill (Z.to_nat n - length s) ++ s.

(** A relative index of [slice]: negative counts from the end, and the
    result is clamped to [0 .. len]. *)
Definition rel_index (len : nat) (i : Z) : nat :=
  if i <? 0 then Z.to_nat (Z.max (Z.of_nat len + i) 0)
  else Nat.min (Z.to_nat i) len.

(** [s.slice(start, end)] *)
Definition slice (s : jsstring) (start stop : Z) : jsstring :=
  let from := rel_index (length s) start in
  let to := rel_index (length s) stop in
  firstn (to - from) (skipn from s).

(** [s.slice(start)] *)
Definition slice_from (s : jsstring) (start : Z) : jsstring :=
  skipn (rel_index (length s) start) s.

(** [s.startsWith(p)] *)
Fixpoint startsWith (s p : jsstring) {struct p} : bool :=
  match p, s with
  | [], _ => true
  | c :: p', d :: s' => Ascii.eqb c d && startsWith s' p'
  | _ :: _, [] => false
  end.

End JsString.

(* ================================================================= *)
(** ** Decimal digits and [bigint] *)

Module BigIntModel.
Import JsString.

Definition digit_value (c : ascii) : Z := Z.of_N (code c) - 48.

(** The number a sequence of decimal digits denotes (most significant
    digit first); the empty sequence denotes 0. *)
Definition digits_value (s : jsstring) : Z :=
  fold_left (fun acc c => 10 * acc + digit_value c) s 0.

(** [BigInt(s)] on the inputs the package gives it: a string of decimal
    digits (the empty string is [0n]); anything else is a
    [SyntaxError]. *)
Definition BigInt (s : jsstring) : completion Z :=
  if forallb is_digit s then Return (digits_value s)
  else Throw (JsError ("Cannot convert " ++ s ++ " to a BigInt")).

(** [n.toString()] of a bigint: decimal, no leading zero, [-] for a
    negative number. *)
Definition toString (n : Z) : jsstring :=
  list_ascii_of_string (NilEmpty.string_of_int (Z.to_int n)).

End BigIntModel.

(* ================================================================= *)
(** ** utils.ts: the amount codec *)

Import JsString BigIntModel.
Local Open Scope js_scope.

(** The test [/^\d+(\.\d+)?$/.test(s)]: one or more digits, then either
    the end of the string or a point and one or more digits up to the
    end. *)
Fixpoint skip_digits (s : jsstring) : jsstring :=
  match s with
  | c :: t => if is_digit c then skip_digits t else s
  | [] => []
  end.

Definition amount_regex_test (s : jsstring) : bool :=
  match s with
  | c :: t =>
      is_digit c &&
      match skip_digits t with
      | [] => true
      | p :: f => Ascii.eqb p "." &&
                  match f with
                  | d :: f' => is_digit d && forallb is_digit f'
                  | [] => false
                  end
      end
  | [] => false
  end.

(** The three validation failures of [parseAmount], by their messages. *)
Definition EmptyAmount : thrown := JsError "Amount is required".
Definition InvalidAmountFormat : thrown := JsError "Invalid amount format".
Definition TooManyDecimalPlaces (decimals : Z) : thrown :=
  JsError ("Too many decimal places (maximum " ++ toString decimals ++ ")").

(** [[integerPart = '0', decimalPart = ''] = trimmed.split('.')] *)
Definition integerPart_of (parts : list jsstring) : jsstring :=
  nth 0 parts (list_ascii_of_string "0").
Definition decimalPart_of (parts : list jsstring) : jsstring :=
  nth 1 parts [].

Definition parseAmount (amount : jsstring) (decimals : Z) : completion Z :=
  let trimmed := trim amount in
  match trimmed with
  | [] => Throw EmptyAmount
  | _ =>
      if negb (amount_regex_test trimmed) then Throw InvalidAmountFormat
      else
        let parts := split "." trimmed in
        let integerPart := integerPart_of parts in
        let decimalPart := decimalPart_of parts in
        if Z.of_nat (length decimalPart) >? decimals
        then Throw (TooManyDecimalPlaces decimals)
        else
          let paddedDecimal := padEnd decimalPart decimals "0" in
          let combined := integerPart ++ paddedDecimal in
          BigInt combined
  end.

(** An amount given to [formatAmount]: a [bigint] or a number. *)
Inductive amount_value : Type :=
| BigIntAmount (n : Z)
| NumberAmount (x : js_number).

(** [amount.toString()]; for a number it is the engine's
    [Number.prototype.toString], taken from [Number_toString]. *)
Definition amount_toString (Number_toString : js_number -> jsstring)
           (amount : amount_value) : jsstring :=
  match amount with
  | BigIntAmount n => toString n
  | NumberAmount x => Number_toString x
  end.

Definition formatAmount (Number_toString : js_number -> jsstring)
           (amount : amount_value) (decimals : Z) : jsstring :=
  let amountStr := amount_toString Number_toString amount in
  let decimalPoints := decimals in
  if Z.of_nat (length amountStr) <=? decimalPoints then
    "0." ++ padStart amountStr decimalPoints "0"
  else
    let integerPart := slice amountStr 0 (- decimalPoints) in
    let decimalPart := slice_from amountStr (- decimalPoints) in
    integerPart ++ "." ++ decimalPart.

(** [hasSufficientBalance(balance, requiredAmount, minFee)] *)
Definition hasSufficientBalance (balance requiredAmount minFee : Z) : bool :=
  let totalRequired := requiredAmount + minFee in
  balance >=? totalRequired.

(* ================================================================= *)
(** ** Bytes, dynamic values and host calls *)

Definition bytes := list Byte.byte.

Definition bytes_eqb (a b : bytes) : bool :=
  if list_eq_dec Byte.byte_eq_dec a b then true else false.

(** The values that can turn up where the TypeScript types promise a
    string or a [Uint8Array]: the provider's answer and an account's
    [secretKey] are both inspected at run time. A [VArray] is a plain
    array, whatever its elements; [VObject] is any other object. *)
#[local] Unset Elimination Schemes.
Inductive js_value : Type :=
| VUndefined
| VNull
| VBoolean (b : bool)
| VNumber (x : js_number)
| VString (s : jsstring)
| VUint8Array (b : bytes)
| VArray (l : list js_value)
| VBigInt (n : Z)
| VSymbol
| VObject.
#[local] Set Elimination Schemes.

(** The truthy values: [!v] is [false] exactly on them. *)
Definition truthy (v : js_value) : bool :=
  match v with
  | VUndefined | VNull => false
  | VBoolean b => b
  | VNumber NaN => false
  | VNumber (Infinity _) => true
  | VNumber (Finite q) => negb (Qeq_bool q 0)
  | VString s => match s with [] => false | _ => true end
  | VUint8Array _ | VArray _ | VSymbol | VObject => true
  | VBigInt n => negb (n =? 0)
  end.

(** [l.map(f)] for a callback that can throw: left to right, stopping at
    the first throw. *)
Fixpoint map_throwing {A B} (f : A -> completion B) (l : list A)
  : completion (list B) :=
  match l with
  | [] => Return []
  | x :: rest =>
      let* y := f x in
      let* ys := map_throwing f rest in
      Return (y :: ys)
  end.

(** [ToNumber(v)]. It is total on [undefined], [null], booleans and
    numbers. On the other values the answer is the engine's and is taken
    from [ToNumber_other]: the number a string reads as, a [TypeError]
    on a [bigint] and on a symbol, and on an object whatever its
    conversion to a primitive gives or throws. *)
Definition ToNumber (ToNumber_other : js_value -> completion js_number)
           (v : js_value) : completion js_number :=
  match v with
  | VUndefined => Return NaN
  | VNull => Return (integer 0)
  | VBoolean b => Return (integer (if b then 1 else 0))
  | VNumber x => Return x
  | VString _ | VUint8Array _ | VArray _ | VBigInt _ | VSymbol | VObject =>
      ToNumber_other v
  end.

(** The integer part of a rational, rounding towards zero. *)
Definition truncate (q : Q) : Z := Z.quot (Qnum q) (Z.pos (Qden q)).

(** [ToUint8]: an integer modulo 256; a number that is not finite is 0,
    and a finite one is truncated first. *)
Definition ToUint8 (n : Z) : Byte.byte :=
  byte_of_ascii (ascii_of_N (Z.to_N (n mod 256))).

Definition number_ToUint8 (x : js_number) : Byte.byte :=
  match x with
  | Finite q => ToUint8 (truncate q)
  | NaN | Infinity _ => ToUint8 0
  end.

(** [Uint8Array.from(array)], and the bytes of [Buffer.from(array)]:
    the elements are converted in order, and the first conversion that
    throws ends the call. *)
Definition Uint8Array_from (ToNumber_other : js_value -> completion js_number)
           (l : list js_value) : completion bytes :=
  map_throwing
    (fun v => let* x := ToNumber ToNumber_other v in Return (number_ToUint8 x))
    l.

(** The calls that leave the package, in the order they are made. *)
Inductive host_call : Type :=
| ProviderRequest (method : jsstring)
| SignTransaction (txn : bytes).

(** An [async] body: the host calls it made and how it completed. *)
Definition io (A : Type) : Type := (list host_call * completion A)%type.

Definition ret {A} (a : A) : io A := ([], Return a).
Definition throw {A} (e : thrown) : io A := ([], Throw e).

(** One host call and its answer. *)
Definition call {A} (c : host_call) (answer : completion A) : io A := ([c], answer).

(** A synchronous library call that leaves no entry in the trace. *)
Definition sdk {A} (answer : completion A) : io A := ([], answer).

Definition io_bind {A B} (m : io A) (k : A -> io B) : io B :=
  match m with
  | (t, Return a) => let (t', r) := k a in (t ++ t', r)
  | (t, Throw e) => (t, Throw e)
  end.

(** [try { m } catch (error) { h error }] *)
Definition io_try {A} (m : io A) (h : thrown -> io A) : io A :=
  match m with
  | (t, Return a) => (t, Return a)
  | (t, Throw e) => let (t', r) := h e in (t ++ t', r)
  end.

Definition try_catch {A} (c : completion A) (h : thrown -> completion A) : completion A :=
  match c with
  | Return a => Return a
  | Throw e => h e
  end.

Notation "x '<-' m ';;' k" := (io_bind m (fun x => k))
  (at level 61, m at next level, right associativity) : js_scope.

Definition trace {A} (m : io A) : list host_call := fst m.
Definition outcome {A} (m : io A) : completion A := snd m.

(* ================================================================= *)
(** ** [Buffer.from(s, 'hex')] *)

Definition hex_digit (c : ascii) : option N :=
  let n := code c in
  (if (48 <=? n) && (n <=? 57) then Some (n - 48)
   else if (97 <=? n) && (n <=? 102) then Some (n - 87)
   else if (65 <=? n) && (n <=? 70) then Some (n - 55)
   else None)%N.

(** Pairs of hexadecimal digits are decoded from the left; decoding stops
    at the first pair that is not two hexadecimal digits, and a last
    single character is dropped. It never throws. *)
Fixpoint Buffer_from_hex (s : jsstring) : bytes :=
  match s with
  | h :: l :: rest =>
      match hex_digit h, hex_digit l with
      | Some a, Some b =>
          byte_of_ascii (ascii_of_N (16 * a + b)) :: Buffer_from_hex rest
      | _, _ => []
      end
  | _ => []
  end.

(* ================================================================= *)
(** ** algorandAdapter.ts *)

Record AlgorandAccountFromWeb3Auth : Type := {
  address : jsstring;
  mnemonic : jsstring;
  secretKey : js_value
}.

(** The Web3Auth [IProvider], reduced to what the adapter asks of it: the
    settled value of [provider.request({ method })]. *)
Record IProvider : Type := {
  request : jsstring -> completion js_value
}.

(** What [algosdk.mnemonicToSecretKey] returns. *)
Record Account : Type := {
  addr : jsstring;
  sk : bytes
}.

(** What [algosdk.signTransaction] returns. *)
Record SignedTxn : Type := {
  txID : jsstring;
  blob : bytes
}.

Definition ProviderRequired : thrown :=
  JsError "Provider is required to derive Algorand account".
Definition KeyRetrievalFailed : thrown :=
  JsError "Failed to retrieve private key from Web3Auth provider".
Definition AccountDerivationFailed (cause : jsstring) : thrown :=
  JsError ("Failed to derive Algorand account from Web3Auth: " ++ cause).
Definition TransactionSigningFailed (cause : jsstring) : thrown :=
  JsError ("Failed to sign transaction: " ++ cause).

Section AlgorandAdapter.

(** The algosdk functions the adapter calls. *)
Variable secretKeyToMnemonic : bytes -> completion jsstring.
Variable mnemonicToSecretKey : jsstring -> completion Account.
Variable signTransaction : bytes -> bytes -> completion SignedTxn.

(** The body of the [try] block of [getAlgorandAccount]. *)
Definition derive_account (provider : IProvider) : io AlgorandAccountFromWeb3Auth :=
  privKey <- call (ProviderRequest "private_key") (request provider "private_key") ;;
  match privKey with
  | VString privKey' =>
      if negb (truthy privKey) then throw KeyRetrievalFailed
      else
        let cleanHexKey :=
          if startsWith privKey' "0x" then slice_from privKey' 2 else privKey' in
        let privateKeyBytes := Buffer_from_hex cleanHexKey in
        let ed25519SecretKey := firstn 32 privateKeyBytes in
        mnemonic <- sdk (secretKeyToMnemonic ed25519SecretKey) ;;
        accountFromMnemonic <- sdk (mnemonicToSecretKey mnemonic) ;;
        ret {| address := addr accountFromMnemonic;
               mnemonic := mnemonic;
               secretKey := VUint8Array (sk accountFromMnemonic) |}
  | _ => throw KeyRetrievalFailed
  end.

Definition getAlgorandAccount (provider : option IProvider)
  : io AlgorandAccountFromWeb3Auth :=
  match provider with
  | None => throw ProviderRequired
  | Some provider =>
      io_try (derive_account provider)
        (fun error =>
           match error with
           | JsError message => throw (AccountDerivationFailed message)
           | _ => throw error
           end)
  end.

(** The [for ... of] loop of the signer that [createAlgorandSigner]
    returns; [signedTxns] is the array built so far. *)
Fixpoint sign_each (secretKey : bytes) (transactions : list bytes)
         (signedTxns : list bytes) : io (list bytes) :=
  match transactions with
  | [] => ret signedTxns
  | txn :: rest =>
      signedTxns' <-
        io_try
          (signedTxn <- call (SignTransaction txn) (signTransaction txn secretKey) ;;
           ret (signedTxns ++ [blob signedTxn]))
          (fun error =>
             throw (TransactionSigningFailed
                      match error with
                      | JsError message => message
                      | _ => "Unknown error"
                      end)) ;;
      sign_each secretKey rest signedTxns'
  end.

Definition createAlgorandSigner (secretKey : bytes)
  : list bytes -> io (list bytes) :=
  fun transactions => sign_each secretKey transactions [].

(** The blob the SDK returns for a transaction. *)
Definition signs_to (secretKey : bytes) (txn blob' : bytes) : Prop :=
  exists signedTxn,
    signTransaction txn secretKey = Return signedTxn /\ blob' = blob signedTxn.

End AlgorandAdapter.

(* ================================================================= *)
(** ** utils.ts: signers and inspection helpers *)

Definition InvalidSecretKeyType : thrown :=
  JsError "Web3Auth secretKey is not a Uint8Array (or number[]). Cannot sign transactions.".

(** [v instanceof Uint8Array] and [Array.isArray(v)] *)
Definition instanceof_Uint8Array (v : js_value) : option bytes :=
  match v with VUint8Array b => Some b | _ => None end.
Definition Array_isArray (v : js_value) : option (list js_value) :=
  match v with VArray l => Some l | _ => None end.

(** What [algosdk.decodeSignedTransaction] exposes to
    [verifyWeb3AuthSignature]: the optional [sig] field with its optional
    [signers] list and [signer]; [None] stands for [undefined] or [null]. *)
Record SigField : Type := {
  signers : option (list (option bytes));
  signer : option bytes
}.

Record DecodedSignedTxn : Type := {
  sig : option SigField
}.

(** What [algosdk.decodeAddress] returns. *)
Record DecodedAddress : Type := {
  publicKey : bytes;
  checksum : bytes
}.

(** [a ?? b] on optional values. *)
Definition nullish {A} (a b : option A) : option A :=
  match a with Some x => Some x | None => b end.

(** [decodedTxn.sig?.signers?.[0] ?? decodedTxn.sig?.signer] *)
Definition txnSigner_of (decodedTxn : DecodedSignedTxn) : option bytes :=
  nullish
    (match sig decodedTxn with
     | Some s => match signers s with
                 | Some l => nth 0 l None
                 | None => None
                 end
     | None => None
     end)
    (match sig decodedTxn with
     | Some s => signer s
     | None => None
     end).

(** The signer's public key of a decoded signed transaction: the first
    entry of the signer list when the list is there and has a first
    entry that is not [null]; otherwise the single signer. *)
Inductive signer_key_of (decodedTxn : DecodedSignedTxn) : bytes -> Prop :=
| first_of_signer_list s key rest :
    sig decodedTxn = Some s ->
    signers s = Some (Some key :: rest) ->
    signer_key_of decodedTxn key
| single_signer s key :
    sig decodedTxn = Some s ->
    (signers s = None \/ signers s = Some [] \/
     exists rest, signers s = Some (None :: rest)) ->
    signer s = Some key ->
    signer_key_of decodedTxn key.

(** [a / b] for two integers: [NaN], an infinity, or the quotient (the
    double nearest to it). *)
Definition js_div (a b : Z) : js_number :=
  if b =? 0 then
    if a =? 0 then NaN else Infinity (a <? 0)
  else Finite (Qmake (a * Z.sgn b) (Z.to_pos (Z.abs b))).

Record GroupAnalysis : Type := {
  count : Z;
  totalSize : Z;
  averageSize : js_number
}.

Section Utils.

(** The engine's [ToNumber] outside [undefined], [null], booleans and
    numbers. *)
Variable ToNumber_other : js_value -> completion js_number.

(** The algosdk functions the helpers call; [Signer] is the type of the
    [TransactionSigner] closures algosdk builds. *)
Variable Signer : Type.
Variable makeBasicAccountTransactionSigner : jsstring -> bytes -> Signer.
Variable decodeSignedTransaction : bytes -> completion DecodedSignedTxn.
Variable decodeAddress : jsstring -> completion DecodedAddress.

Definition createWeb3AuthSigner (account : AlgorandAccountFromWeb3Auth)
  : completion Signer :=
  let sk := secretKey account in
  let addr := address account in
  let* secretKey :=
    match instanceof_Uint8Array sk with
    | Some b => Return b
    | None =>
        match Array_isArray sk with
        | Some l => Uint8Array_from ToNumber_other l
        | None => Throw InvalidSecretKeyType
        end
    end in
  Return (makeBasicAccountTransactionSigner addr secretKey).

(** [console.error] in the [catch] block has no effect on the result and
    is left out. *)
Definition verifyWeb3AuthSignature (signedTransaction : bytes)
           (account : AlgorandAccountFromWeb3Auth) : completion bool :=
  try_catch
    (let* decodedTxn := decodeSignedTransaction signedTransaction in
     match txnSigner_of decodedTxn with
     | None => Return false
     | Some txnSigner =>
         let* decodedAddress := decodeAddress (address account) in
         Return (bytes_eqb txnSigner (publicKey decodedAddress))
     end)
    (fun error => Return false).

End Utils.

Definition analyzeTransactionGroup (transactions : list bytes) : GroupAnalysis :=
  {| count := Z.of_nat (length transactions);
     totalSize :=
       fold_left (fun sum txn => sum + Z.of_nat (length txn)) transactions 0;
     averageSize :=
       js_div (fold_left (fun sum txn => sum + Z.of_nat (length txn)) transactions 0)
              (Z.of_nat (length transactions)) |}.

(* ================================================================= *)
(** ** Reading strings as numbers *)

Definition all_digits (s : jsstring) : Prop := forallb is_digit s = true.

(** The language of [^\d+(\.\d+)?$], in words: a non-empty run of digits,
    optionally followed by a point and another non-empty run of digits. *)
Definition matches_amount (s : jsstring) : Prop :=
  exists ip, ip <> [] /\ all_digits ip /\
    (s = ip \/ exists fp, fp <> [] /\ all_digits fp /\ s = ip ++ "."%char :: fp).

Definition pow10 (n : nat) : positive := Z.to_pos (10 ^ Z.of_nat n).

(** The number a decimal literal denotes ([digits], [digits.], [.digits]
    or [digits.digits], as [Number(s)] reads them, before any rounding to
    a double): the integer digits plus the fraction digits over the
    matching power of ten. *)
Definition numeric_value (s : jsstring) : option Q :=
  match split "." s with
  | [ip] =>
      match ip with
      | [] => None
      | _ => if forallb is_digit ip then Some (inject_Z (digits_value ip)) else None
      end
  | [ip; fp] =>
      match ip ++ fp with
      | [] => None
      | _ =>
          if forallb is_digit ip && forallb is_digit fp
          then Some (inject_Z (digits_value ip)
                     + Qmake (digits_value fp) (pow10 (length fp)))%Q
          else None
      end
  | _ => None
  end.

(** Two strings that denote the same number. *)
Definition numerically_equal (a b : jsstring) : Prop :=
  match numeric_value a, numeric_value b with
  | Some x, Some y => (x == y)%Q
  | _, _ => False
  end.

(** A string denotes [n / 10^d]. *)
Definition denotes_scaled (s : jsstring) (n d : Z) : Prop :=
  exists q, numeric_value s = Some q /\ (q * inject_Z (10 ^ d) == inject_Z n)%Q.

(** The digits after the point of a trimmed amount, as [parseAmount]
    takes them apart. *)
Definition fraction_of (s : jsstring) : jsstring := decimalPart_of (split "." s).
Definition integer_of (s : jsstring) : jsstring := integerPart_of (split "." s).

(* ================================================================= *)
(** ** Reading the derivation and the batch signer *)

(** The key string without its optional [0x] prefix. *)
Definition strip_0x (key : jsstring) : jsstring :=
  match key with
  | a :: b :: rest => if Ascii.eqb "0" a && Ascii.eqb "x" b then rest else key
  | _ => key
  end.

(** The 32-byte private seed the adapter takes from a key string. *)
Definition seed_of_key (key : jsstring) : bytes :=
  firstn 32 (Buffer_from_hex (strip_0x key)).

Section DerivationFailures.

Variable secretKeyToMnemonic : bytes -> completion jsstring.
Variable mnemonicToSecretKey : jsstring -> completion Account.

(** What can be thrown while an account is derived with a provider: the
    provider's rejection; the missing-key error, when the provider's
    answer is not a non-empty string; what the SDK throws on the seed;
    and what it throws on the mnemonic. *)
Inductive thrown_in_derivation (provider : IProvider) : thrown -> Prop :=
| provider_rejected e :
    request provider "private_key" = Throw e ->
    thrown_in_derivation provider e
| key_missing v :
    request provider "private_key" = Return v ->
    (forall key, key <> [] -> v <> VString key) ->
    thrown_in_derivation provider KeyRetrievalFailed
| mnemonic_failed key e :
    request provider "private_key" = Return (VString key) ->
    key <> [] ->
    secretKeyToMnemonic (seed_of_key key) = Throw e ->
    thrown_in_derivation provider e
| keypair_failed key m e :
    request provider "private_key" = Return (VString key) ->
    key <> [] ->
    secretKeyToMnemonic (seed_of_key key) = Return m ->
    mnemonicToSecretKey m = Throw e ->
    thrown_in_derivation provider e.

End DerivationFailures.

(** The message the batch signer puts after its prefix. *)
Definition signing_failure_message (error : thrown) : jsstring :=
  match error with
  | JsError message => message
  | JsNonError _ => "Unknown error"
  end.

(** The total byte size of a group. *)
Definition total_bytes (transactions : list bytes) : Z :=
  Z.of_nat (list_sum (map (@length Byte.byte) transactions)).

(* ================================================================= *)
(** ** A stand-in SDK

    A small, total instance of the algosdk interface, used to run the
    adapter on concrete inputs: the mnemonic of a seed is the seed read as
    a string, the public key of a seed is the seed itself, and signing
    appends the key to the transaction and refuses the empty
    transaction. *)

Module StandIn.

Definition secretKeyToMnemonic (seed : bytes) : completion jsstring :=
  if (length seed =? 32)%nat then Return (map ascii_of_byte seed)
  else Throw (JsError "Seed length must be 32").

Definition publicKeyOfSeed (seed : bytes) : bytes := seed.

Definition encodeAddress (pk : bytes) : jsstring := map ascii_of_byte pk.

Definition mnemonicToSecretKey (m : jsstring) : completion Account :=
  let seed := map byte_of_ascii m in
  Return {| addr := encodeAddress (publicKeyOfSeed seed);
            sk := seed ++ publicKeyOfSeed seed |}.

Definition signTransaction (txn key : bytes) : completion SignedTxn :=
  match txn with
  | [] => Throw (JsError "empty transaction")
  | _ => Return {| txID := map ascii_of_byte txn; blob := txn ++ key |}
  end.

(** A provider that answers every request with the same key string. *)
Definition provider (key : jsstring) : IProvider :=
  {| request := fun _ => Return (VString key) |}.

(** 33 bytes of key material, with the [0x] prefix. *)
Definition sample_key : jsstring :=
  "0x000102030405060708090a0b0c0d0e0f101112131415161718191A1B1C1D1E1F20".

End StandIn.

(* ================================================================= *)
(** ** algorandAdapter.ts: address and key helpers *)

Definition InvalidSecretKeyLength (actual : nat) : thrown :=
  JsError ("Invalid secret key length: expected 64 bytes, got "
           ++ toString (Z.of_nat actual)).

Definition getPublicKeyFromSecretKey (secretKey : bytes) : completion bytes :=
  if negb (length secretKey =? 64)%nat
  then Throw (InvalidSecretKeyLength (length secretKey))
  else Return (skipn 32 secretKey).

Section AddressHelpers.

Variable decodeAddress : jsstring -> completion DecodedAddress.

(** The argument is typed [string] but tested with [typeof]. *)
Definition isValidAlgorandAddress (address : js_value) : completion bool :=
  match address with
  | VString address' =>
      if negb (truthy address) then Return false
      else
        try_catch
          (let* _ := decodeAddress address' in Return true)
          (fun _ => Return false)
  | _ => Return false
  end.

End AddressHelpers.

(* ================================================================= *)
(** ** [Buffer.from(value)] and [buf.toString(encoding)] *)

(** The UTF-8 bytes of a code unit below U+0100. *)
Definition utf8_of_code_unit (c : ascii) : bytes :=
  let n := code c in
  if (n <? 128)%N then [byte_of_ascii c]
  else [byte_of_ascii (ascii_of_N (192 + n / 64));
        byte_of_ascii (ascii_of_N (128 + n mod 64))].

(** [Buffer.from(value)]: a copy of a [Uint8Array], the elements of an
    array converted as [Uint8Array.from] converts them, the UTF-8
    encoding of a string; a [TypeError] for the other values ([VObject]
    being an object that is neither array-like nor a buffer). *)
Definition Buffer_from (ToNumber_other : js_value -> completion js_number)
           (value : js_value) : completion bytes :=
  match value with
  | VUint8Array b => Return b
  | VArray l => Uint8Array_from ToNumber_other l
  | VString s => Return (flat_map utf8_of_code_unit s)
  | _ => Throw (JsError "The first argument must be of type string or an instance of Buffer, ArrayBuffer, or Array or an Array-like Object.")
  end.

Definition hex_char (n : N) : ascii :=
  nth (N.to_nat n) (list_ascii_of_string "0123456789abcdef") "0"%char.

(** [buf.toString('hex')]: two lower-case digits per byte. *)
Definition toString_hex (b : bytes) : jsstring :=
  flat_map (fun x => [hex_char (Byte.to_N x / 16); hex_char (Byte.to_N x mod 16)]) b.

Definition base64_char (n : N) : ascii :=
  nth (N.to_nat n)
      (list_ascii_of_string
         "ABCDEFGHIJKLMNOPQRSTUVWXYZabcdefghijklmnopqrstuvwxyz0123456789+/")
      "="%char.

(** [buf.toString('base64')]: four characters per three bytes, padded
    with [=]. *)
Fixpoint toString_base64 (b : bytes) : jsstring :=
  match b with
  | x :: y :: z :: rest =>
      let n := (65536 * Byte.to_N x + 256 * Byte.to_N y + Byte.to_N z)%N in
      base64_char (n / 262144) :: base64_char ((n / 4096) mod 64)
      :: base64_char ((n / 64) mod 64) :: base64_char (n mod 64)
      :: toString_base64 rest
  | [x; y] =>
      let n := (65536 * Byte.to_N x + 256 * Byte.to_N y)%N in
      [base64_char (n / 262144); base64_char ((n / 4096) mod 64);
       base64_char ((n / 64) mod 64); "="%char]
  | [x] =>
      let n := (65536 * Byte.to_N x)%N in
      [base64_char (n / 262144); base64_char ((n / 4096) mod 64);
       "="%char; "="%char]
  | [] => []
  end.

(* ================================================================= *)
(** ** utils.ts: signer objects and account inspection *)

(** algosdk's [TransactionSigner]: the transaction group and the indexes
    to sign, to the signed blobs the promise settles with. *)
Definition TransactionSigner (Transaction : Type) : Type :=
  list Transaction -> list Z -> completion (list bytes).

Record AlgorandTransactionSigner : Type := {
  sign : list bytes -> completion (list bytes);
  sender : jsstring
}.

Record MultiSigSigner (Transaction : Type) : Type := {
  msig_signer : TransactionSigner Transaction;
  msig_sender : jsstring;
  msig_account : AlgorandAccountFromWeb3Auth
}.
Arguments msig_signer {Transaction} _.
Arguments msig_sender {Transaction} _.
Arguments msig_account {Transaction} _.

Record AccountInfo : Type := {
  info_address : jsstring;
  publicKeyBytes : bytes;
  publicKeyBase64 : jsstring;
  secretKeyHex : jsstring;
  mnemonicPhrase : jsstring
}.

(** [l.map((_, i) => i)], counting from [i]. *)
Fixpoint indexes_from {A} (i : Z) (l : list A) : list Z :=
  match l with
  | [] => []
  | _ :: rest => i :: indexes_from (i + 1) rest
  end.

Section SignerObjects.

Variable ToNumber_other : js_value -> completion js_number.
Variable Transaction : Type.
Variable makeBasicAccountTransactionSigner :
  jsstring -> bytes -> TransactionSigner Transaction.
Variable decodeUnsignedTransaction : bytes -> completion Transaction.
Variable decodeAddress : jsstring -> completion DecodedAddress.

Definition createWeb3AuthSignerObject (account : AlgorandAccountFromWeb3Auth)
  : completion AlgorandTransactionSigner :=
  let* signerFn :=
    createWeb3AuthSigner ToNumber_other (TransactionSigner Transaction)
      makeBasicAccountTransactionSigner account in
  let sign := fun transactions : list bytes =>
    let* txns := map_throwing decodeUnsignedTransaction transactions in
    let* signed := signerFn txns (indexes_from 0 txns) in
    Return signed in
  Return {| sign := sign; sender := address account |}.

Definition createWeb3AuthMultiSigSigner (account : AlgorandAccountFromWeb3Auth)
  : completion (MultiSigSigner Transaction) :=
  let* signer :=
    createWeb3AuthSigner ToNumber_other (TransactionSigner Transaction)
      makeBasicAccountTransactionSigner account in
  Return {| msig_signer := signer;
            msig_sender := address account;
            msig_account := account |}.

Definition getWeb3AuthAccountInfo (account : AlgorandAccountFromWeb3Auth)
  : completion AccountInfo :=
  let* decodedAddress := decodeAddress (address account) in
  let* publicKeyBuffer :=
    Buffer_from ToNumber_other (VUint8Array (publicKey decodedAddress)) in
  let* secretKeyBuffer := Buffer_from ToNumber_other (secretKey account) in
  Return {| info_address := address account;
            publicKeyBytes := publicKey decodedAddress;
            publicKeyBase64 := toString_base64 publicKeyBuffer;
            secretKeyHex := toString_hex secretKeyBuffer;
            mnemonicPhrase := mnemonic account |}.

End SignerObjects.

(* ================================================================= *)
(** ** TokenizeTransfers.tsx: [decimalToBaseUnits] *)

(** [s.replace(/^0+(?=\d)/, '')]: the leading zeros go, as long as a
    digit follows them. *)
Fixpoint strip_leading_zeros (s : jsstring) : jsstring :=
  match s with
  | z :: (c :: _) as t =>
      if Ascii.eqb z "0" && is_digit c then strip_leading_zeros t else s
  | _ => s
  end.

Definition TooManyDecimalPlacesMax (decimals : Z) : thrown :=
  JsError ("Too many decimal places (max " ++ toString decimals ++ ")").

(** [a || b] on strings. *)
Definition or_string (a b : jsstring) : jsstring :=
  match a with [] => b | _ => a end.

Definition decimalToBaseUnits (value : jsstring) (decimals : Z) : completion Z :=
  let v := trim value in
  match v with
  | [] => Throw EmptyAmount
  | _ =>
      if negb (amount_regex_test v) then Throw InvalidAmountFormat
      else
        let parts := split "." v in
        let wholeRaw := nth 0 parts [] in
        let fracRaw := nth 1 parts [] in
        let whole := or_string wholeRaw "0" in
        let frac := or_string fracRaw [] in
        if Z.of_nat (length frac) >? decimals
        then Throw (TooManyDecimalPlacesMax decimals)
        else
          let fracPadded := padEnd frac decimals "0" in
          let combined := strip_leading_zeros (whole ++ fracPadded) in
          BigInt (or_string combined "0")
  end.

(** [isWholeNumber]: [/^\d+$/.test(v)] *)
Definition isWholeNumber (v : jsstring) : bool :=
  match v with
  | [] => false
  | _ => forallb is_digit v
  end.

(* ================================================================= *)
(** ** Web3AuthGoogleButton.tsx: [ellipseAddress] *)

Definition ellipseAddress (address : jsstring) (startChars endChars : Z) : jsstring :=
  if match address with [] => true | _ => false end
     || (Z.of_nat (length address) <=? startChars + endChars)
  then address
  else slice address 0 startChars ++ "..." ++ slice_from address (- endChars).

(** A string of hexadecimal digits only. *)
Definition all_hex (s : jsstring) : Prop :=
  forall c, In c s -> hex_digit c <> None.

(* ================================================================= *)
(** ** web3authConfig.ts: the cached Web3Auth instance *)

(** The values found in the configuration objects. *)
Inductive cfg_value : Type :=
| CUndefined
| CNull
| CString (s : jsstring)
| CStringArray (l : list jsstring)
| CNumber (n : Z)
| CBoolean (b : bool).

(** [v ?? d] *)
Definition cfg_nullish (v : cfg_value) : bool :=
  match v with CUndefined | CNull => true | _ => false end.

Definition cfg_or (v d : cfg_value) : cfg_value :=
  if cfg_nullish v then d else v.

(** A plain object: its own properties in the order they were written;
    a later property with the same key replaces an earlier one. *)
Definition js_object := list (jsstring * cfg_value).

Definition key_eqb (a b : jsstring) : bool :=
  if list_eq_dec Ascii.ascii_dec a b then true else false.

Definition has_key (o : js_object) (k : jsstring) : bool :=
  existsb (fun p => key_eqb (fst p) k) o.

(** [o[k]]: [undefined] for a property the object does not have. *)
Definition get_property (o : js_object) (k : jsstring) : cfg_value :=
  fold_left (fun found p => if key_eqb (fst p) k then snd p else found) o CUndefined.

(** types.ts *)
Definition DEFAULT_UI_CONFIG : js_object :=
  [(list_ascii_of_string "appName", CString "Algorand Web3Auth");
   (list_ascii_of_string "mode", CString "light");
   (list_ascii_of_string "loginMethodsOrder", CStringArray ["google" : jsstring])].

Record AlgorandWeb3AuthConfig : Type := {
  clientId : cfg_value;
  web3AuthNetwork : cfg_value;
  chainConfig : option js_object;
  uiConfig : option js_object
}.

Section Web3AuthSession.

(** The constants of [@web3auth/base] that the defaults use. *)
Variable CHAIN_NAMESPACES_OTHER : cfg_value.
Variable SAPPHIRE_DEVNET : cfg_value.

Definition DEFAULT_ALGORAND_CHAIN_CONFIG : js_object :=
  [(list_ascii_of_string "chainNamespace", CHAIN_NAMESPACES_OTHER);
   (list_ascii_of_string "chainId", CString "0x1");
   (list_ascii_of_string "rpcTarget", CString "https://testnet-api.algonode.cloud");
   (list_ascii_of_string "displayName", CString "Algorand TestNet");
   (list_ascii_of_string "blockExplorerUrl", CString "https://testnet.algoexplorer.io");
   (list_ascii_of_string "ticker", CString "ALGO");
   (list_ascii_of_string "tickerName", CString "Algorand")].

Definition DEFAULT_WEB3AUTH_NETWORK : cfg_value := SAPPHIRE_DEVNET.

Definition sanitizeChainConfig (chainConfig : option js_object) : js_object :=
  match chainConfig with
  | None => DEFAULT_ALGORAND_CHAIN_CONFIG
  | Some chainConfig =>
      DEFAULT_ALGORAND_CHAIN_CONFIG ++ chainConfig
      ++ [(list_ascii_of_string "chainNamespace",
           cfg_or (get_property chainConfig "chainNamespace") CHAIN_NAMESPACES_OTHER)]
  end.

Definition sanitizeUiConfig (uiConfig : option js_object) : js_object :=
  DEFAULT_UI_CONFIG ++ match uiConfig with Some u => u | None => [] end.

(** The Web3Auth object (with its mutable [status] and [provider]), the
    private-key provider object and the user information are the
    library's; a method takes the object to the object it leaves behind
    and the way its promise settles. *)
Variable Web3Auth : Type.
Variable PrivateKeyProvider : Type.
Variable UserInfo : Type.
Variable Provider : Type.

Record Web3AuthOptions : Type := {
  opt_clientId : cfg_value;
  opt_web3AuthNetwork : cfg_value;
  opt_privateKeyProvider : PrivateKeyProvider;
  opt_uiConfig : js_object
}.

Variable new_CommonPrivateKeyProvider : js_object -> completion PrivateKeyProvider.
Variable new_Web3Auth : Web3AuthOptions -> completion Web3Auth.
Variable initModal : Web3Auth -> Web3Auth * completion unit.
Variable logout : Web3Auth -> Web3Auth * completion unit.
Variable getUserInfo : Web3Auth -> Web3Auth * completion UserInfo.
Variable status : Web3Auth -> jsstring.
Variable provider : Web3Auth -> option Provider.

(** The module variable [web3authInstance]. *)
Definition session := option Web3Auth.

(** The part of [initWeb3Auth] that builds the new instance, before the
    module variable is assigned. *)
Definition new_instance (config : AlgorandWeb3AuthConfig) : completion Web3Auth :=
  let chainConfig := sanitizeChainConfig (chainConfig config) in
  let uiConfig := sanitizeUiConfig (uiConfig config) in
  let web3AuthNetwork := cfg_or (web3AuthNetwork config) DEFAULT_WEB3AUTH_NETWORK in
  let* privateKeyProvider := new_CommonPrivateKeyProvider chainConfig in
  let web3AuthConfig :=
    {| opt_clientId := clientId config;
       opt_web3AuthNetwork := web3AuthNetwork;
       opt_privateKeyProvider := privateKeyProvider;
       opt_uiConfig := uiConfig |} in
  new_Web3Auth web3AuthConfig.

Definition initWeb3Auth (config : AlgorandWeb3AuthConfig) (web3authInstance : session)
  : session * completion Web3Auth :=
  match web3authInstance with
  | Some instance => (web3authInstance, Return instance)
  | None =>
      match new_instance config with
      | Throw e => (None, Throw e)
      | Return instance =>
          let (instance', settled) := initModal instance in
          (Some instance',
           let* _ := settled in Return instance')
      end
  end.

Definition getWeb3AuthInstance (web3authInstance : session) : option Web3Auth :=
  web3authInstance.

Definition getWeb3AuthProvider (web3authInstance : session) : option Provider :=
  match web3authInstance with
  | Some instance => provider instance
  | None => None
  end.

Definition isWeb3AuthConnected (web3authInstance : session) : bool :=
  match web3authInstance with
  | Some instance => key_eqb (status instance) "connected"
  | None => false
  end.

Definition getWeb3AuthUserInfo (web3authInstance : session)
  : session * completion (option UserInfo) :=
  match web3authInstance with
  | None => (web3authInstance, Return None)
  | Some instance =>
      if negb (isWeb3AuthConnected web3authInstance)
      then (web3authInstance, Return None)
      else
        let (instance', settled) := getUserInfo instance in
        (Some instance',
         try_catch (let* userInfo := settled in Return (Some userInfo))
                   (fun _ => Return None))
  end.

Definition logoutFromWeb3Auth (web3authInstance : session)
  : session * completion unit :=
  match web3authInstance with
  | None => (web3authInstance, Return tt)
  | Some instance =>
      let (_, settled) := logout instance in
      (None, settled)
  end.

End Web3AuthSession.

(* ================================================================= *)
(** ** TokenizeWorkspace.tsx: [resolveBackendBase] *)

(** [s.endsWith(suffix)] *)
Definition endsWith (s suffix : jsstring) : bool :=
  (length suffix <=? length s)%nat
  && key_eqb (skipn (length s - length suffix) s) suffix.

(** [s.replace(/\/$/, '')]: one slash at the end goes. *)
Definition remove_trailing_slash (s : jsstring) : jsstring :=
  match rev s with
  | c :: r => if Ascii.eqb c "/" then rev r else s
  | [] => s
  end.

Definition codespaces_suffix : jsstring := ".app.github.dev".

(** [host.replace(/-\d+\.app\.github\.dev$/, '-3001.app.github.dev')]:
    the only place the pattern can match is the run of digits right
    before the suffix, when a hyphen stands right before that run. *)
Definition replace_codespaces_port (host : jsstring) : jsstring :=
  if endsWith host codespaces_suffix then
    let body := firstn (length host - length codespaces_suffix) host in
    let after_digits := skip_digits (rev body) in
    if (length after_digits <? length body)%nat then
      match after_digits with
      | c :: before =>
          if Ascii.eqb c "-" then rev before ++ "-3001.app.github.dev" else host
      | [] => host
      end
    else host
  else host.

(** [VITE_API_URL] is the environment variable ([None] when it is not
    set) and [host] is [window.location.host]. *)
Definition resolveBackendBase (VITE_API_URL : option jsstring) (host : jsstring)
  : jsstring :=
  match option_map trim VITE_API_URL with
  | Some (c :: e) =>
      let cleaned := remove_trailing_slash (c :: e) in
      if startsWith cleaned "http://" || startsWith cleaned "https://"
      then cleaned
      else "https://" ++ cleaned
  | _ =>
      if endsWith host codespaces_suffix
      then "https://" ++ replace_codespaces_port host
      else "http://localhost:3001"
  end.

(** A stand-in for the Web3Auth library: an instance is its status
    string, building never fails, and [initModal] always throws. *)
Module SessionSamples.

Definition new_CommonPrivateKeyProvider (chainConfig : js_object)
  : completion js_object := Return chainConfig.

Definition new_Web3Auth (options : Web3AuthOptions js_object)
  : completion jsstring := Return (list_ascii_of_string "not_ready").

Definition initModal (instance : jsstring) : jsstring * completion unit :=
  (list_ascii_of_string "errored", Throw (JsError "modal could not be shown")).

Definition config (id : jsstring) : AlgorandWeb3AuthConfig :=
  {| clientId := CString id; web3AuthNetwork := CUndefined;
     chainConfig := None; uiConfig := None |}.

End SessionSamples.

(** Sample inputs for the runs below. *)
Module Samples.

(** 32 bytes of key material, as 64 hexadecimal digits. *)
Definition digits64 : jsstring :=
  "000102030405060708090a0b0c0d0e0f101112131415161718191A1B1C1D1E1F".

(** A provider that answers every request with the same value. *)
Definition answering (v : js_value) : IProvider :=
  {| request := fun _ => Return v |}.

Definition is_hex_digit (c : ascii) : bool :=
  match hex_digit c with Some _ => true | None => false end.

(** Stand-ins for the engine's conversions, used on sample inputs only:
    a number is printed by its integer part (right for the integers),
    every string or object converts to [NaN] (right for a string that
    is not a numeric literal, such as ["a"]), and a [bigint] or a symbol
    throws the [TypeError]. *)
Definition Number_toString (x : js_number) : jsstring :=
  match x with
  | NaN => list_ascii_of_string "NaN"
  | Infinity false => list_ascii_of_string "Infinity"
  | Infinity true => list_ascii_of_string "-Infinity"
  | Finite q => toString (truncate q)
  end.

Definition ToNumber_other (v : js_value) : completion js_number :=
  match v with
  | VBigInt _ => Throw (JsError "Cannot convert a BigInt value to a number")
  | VSymbol => Throw (JsError "Cannot convert a Symbol value to a number")
  | _ => Return NaN
  end.

End Samples.

Module AddressSamples.

(** An address decoder that takes the characters for the key bytes and
    refuses addresses that do not start with [A]. *)
Definition decodeAddress (s : jsstring) : completion DecodedAddress :=
  match s with
  | "A"%char :: _ => Return {| publicKey := map byte_of_ascii s; checksum := [] |}
  | _ => Throw (JsError "address seems to be malformed")
  end.

(** A decoder of signed transactions that reads the whole blob as the
    single signer's key. *)
Definition decodeSignedTransaction (b : bytes) : completion DecodedSignedTxn :=
  Return {| sig := Some {| signers := None; signer := Some b |} |}.

Definition account : AlgorandAccountFromWeb3Auth :=
  {| address := "AB"; mnemonic := "word"; secretKey := VUint8Array [] |}.

(** A decoder that accepts every address. *)
Definition decodeAny (s : jsstring) : completion DecodedAddress :=
  Return {| publicKey := map byte_of_ascii s; checksum := [] |}.

End AddressSamples.

(* ================================================================= *)
(** * Properties *)

(** ** Sample runs of the amount codec *)

Section AmountCodecProperties.

(** The engine's [Number.prototype.toString]. *)
Variable Number_toString : js_number -> jsstring.

Example parse_1_5 : parseAmount "1.5" 6 = Return 1500000.
Proof. reflexivity. Qed.
Example parse_micro : parseAmount "0.000001" 6 = Return 1.
Proof. reflexivity. Qed.
Example parse_ws : parseAmount "  12.50 " 2 = Return 1250.
Proof. reflexivity. Qed.
Example parse_empty : parseAmount "" 6 = Throw EmptyAmount.
Proof. reflexivity. Qed.
Example parse_abc : parseAmount "abc" 6 = Throw InvalidAmountFormat.
Proof. reflexivity. Qed.
Example parse_many : parseAmount "1.2345678" 6 = Throw (TooManyDecimalPlaces 6).
Proof. reflexivity. Qed.
Example format_5 :
  formatAmount Number_toString (BigIntAmount 5) 6
  = list_ascii_of_string "0.000005".
Proof. reflexivity. Qed.
Example format_big :
  formatAmount Number_toString (BigIntAmount 1500000) 6
  = list_ascii_of_string "1.500000".
Proof. reflexivity. Qed.
Example format_d0 :
  formatAmount Number_toString (BigIntAmount 5) 0 = list_ascii_of_string ".5".
Proof. reflexivity. Qed.

Example sufficient_exactly : hasSufficientBalance 1000000 999000 1000 = true.
Proof. reflexivity. Qed.
Example short_by_one : hasSufficientBalance 1000000 999001 1000 = false.
Proof. reflexivity. Qed.

Example numeric_value_1_5 : numeric_value "1.5" = Some (inject_Z 1 + (5 # 10))%Q.
Proof. reflexivity. Qed.
Example numeric_value_dot5 : numeric_value ".5" = Some (inject_Z 0 + (5 # 10))%Q.
Proof. reflexivity. Qed.
Example numeric_value_bad : numeric_value "1.2.3" = None.
Proof. reflexivity. Qed.

(** ** Digits *)

Lemma is_digit_not_space c : is_digit c = true -> is_space c = false.
Proof.
  unfold is_digit, is_space. intros H.
  apply andb_true_iff in H as [H1 H2].
  apply N.leb_le in H1, H2.
  repeat rewrite orb_false_iff. repeat split.
  - apply andb_false_iff. right. apply N.leb_gt. lia.
  - apply N.eqb_neq. lia.
  - apply N.eqb_neq. lia.
Qed.

Lemma is_digit_not_dot c : is_digit c = true -> Ascii.eqb c "." = false.
Proof.
  intros H. destruct (Ascii.eqb_spec c "."%char) as [->|]; [discriminate H | reflexivity].
Qed.

Lemma digit_value_range c : is_digit c = true -> 0 <= digit_value c <= 9.
Proof.
  unfold is_digit, digit_value. intros H.
  apply andb_true_iff in H as [H1 H2].
  apply N.leb_le in H1, H2. lia.
Qed.

Lemma all_digits_app a b : all_digits (a ++ b) <-> all_digits a /\ all_digits b.
Proof. unfold all_digits. rewrite forallb_app. apply andb_true_iff. Qed.

Lemma all_digits_cons c s : all_digits (c :: s) <-> is_digit c = true /\ all_digits s.
Proof. unfold all_digits. simpl. apply andb_true_iff. Qed.

Lemma all_digits_repeat_0 n : all_digits (repeat "0"%char n).
Proof. induction n; [reflexivity | apply all_digits_cons; split; [reflexivity | assumption]]. Qed.

Lemma fold_digits_acc s : forall acc,
  fold_left (fun a c => 10 * a + digit_value c) s acc
  = acc * 10 ^ Z.of_nat (length s) + digits_value s.
Proof.
  unfold digits_value. induction s as [|c s IH]; intros acc.
  - simpl. lia.
  - cbn [fold_left length]. rewrite IH, (IH (10 * 0 + digit_value c)).
    rewrite Nat2Z.inj_succ, Z.pow_succ_r by lia. ring.
Qed.

Lemma digits_value_app a b :
  digits_value (a ++ b) = digits_value a * 10 ^ Z.of_nat (length b) + digits_value b.
Proof.
  unfold digits_value at 1. rewrite fold_left_app.
  rewrite fold_digits_acc. reflexivity.
Qed.

Lemma digits_value_cons c s :
  digits_value (c :: s) = digit_value c * 10 ^ Z.of_nat (length s) + digits_value s.
Proof.
  change (c :: s) with ([c] ++ s). rewrite digits_value_app.
  unfold digits_value at 1. simpl. lia.
Qed.

Lemma digits_value_repeat_0 n : digits_value (repeat "0"%char n) = 0.
Proof.
  induction n as [|n IH]; [reflexivity|].
  cbn [repeat]. rewrite digits_value_cons, IH. unfold digit_value. simpl. lia.
Qed.

Lemma digits_value_bounds s :
  all_digits s -> 0 <= digits_value s < 10 ^ Z.of_nat (length s).
Proof.
  induction s as [|c s IH]; intros H.
  - cbn. lia.
  - apply all_digits_cons in H as [Hc Hs]. specialize (IH Hs).
    rewrite digits_value_cons. apply digit_value_range in Hc.
    cbn [length]. rewrite Nat2Z.inj_succ, Z.pow_succ_r by lia.
    assert (0 < 10 ^ Z.of_nat (length s)) by (apply Z.pow_pos_nonneg; lia).
    nia.
Qed.

Lemma of_uint_acc_fold d : forall acc,
  Z.pos (Pos.of_uint_acc d acc)
  = fold_left (fun a c => 10 * a + digit_value c)
      (list_ascii_of_string (NilEmpty.string_of_uint d)) (Z.pos acc).
Proof.
  induction d; intros acc; cbn [Pos.of_uint_acc NilEmpty.string_of_uint
    list_ascii_of_string fold_left]; try reflexivity;
    rewrite IHd; f_equal;
    match goal with
    | |- context [digit_value ?c] =>
        let v := eval vm_compute in (digit_value c) in
        change (digit_value c) with v
    end; lia.
Qed.

Lemma of_uint_digits_value d :
  Z.of_N (Pos.of_uint d)
  = digits_value (list_ascii_of_string (NilEmpty.string_of_uint d)).
Proof.
  unfold digits_value.
  induction d; cbn [Pos.of_uint NilEmpty.string_of_uint list_ascii_of_string
    fold_left]; try reflexivity;
    try (cbn [Z.of_N]; rewrite of_uint_acc_fold; f_equal).
  exact IHd.
Qed.

Lemma string_of_uint_digits d :
  all_digits (list_ascii_of_string (NilEmpty.string_of_uint d)).
Proof.
  induction d; cbn [NilEmpty.string_of_uint list_ascii_of_string];
    try reflexivity; apply all_digits_cons; split; try reflexivity; assumption.
Qed.

(** [toString] of a non-negative bigint is a non-empty run of digits that
    denotes it. *)
Lemma toString_nonneg n :
  0 <= n ->
  all_digits (toString n) /\ toString n <> [] /\ digits_value (toString n) = n.
Proof.
  intros Hn. destruct n as [|p|p]; [| |lia].
  - repeat split; [discriminate].
  - unfold toString. cbn [Z.to_int NilEmpty.string_of_int].
    assert (Hv : digits_value
                   (list_ascii_of_string (NilEmpty.string_of_uint (Pos.to_uint p)))
                 = Z.pos p).
    { rewrite <- of_uint_digits_value, DecimalPos.Unsigned.of_to. reflexivity. }
    split; [apply string_of_uint_digits|]. split; [|exact Hv].
    intros E. rewrite E in Hv. discriminate Hv.
Qed.

(** ** The regular expression *)

Lemma skip_digits_all s : all_digits s -> skip_digits s = [].
Proof.
  induction s as [|c s IH]; [reflexivity|].
  intros H. apply all_digits_cons in H as [Hc Hs]. simpl. rewrite Hc. auto.
Qed.

Lemma skip_digits_stop ds c rest :
  all_digits ds -> is_digit c = false -> skip_digits (ds ++ c :: rest) = c :: rest.
Proof.
  induction ds as [|d ds IH]; intros H Hc.
  - simpl. rewrite Hc. reflexivity.
  - apply all_digits_cons in H as [Hd Hs]. simpl. rewrite Hd. auto.
Qed.

Lemma skip_digits_split s :
  exists ds, all_digits ds /\ s = ds ++ skip_digits s.
Proof.
  induction s as [|c s [ds [Hds E]]].
  - exists []. split; reflexivity.
  - simpl. destruct (is_digit c) eqn:Hc.
    + exists (c :: ds). split; [apply all_digits_cons; auto|].
      simpl. f_equal. exact E.
    + exists []. split; reflexivity.
Qed.

Lemma amount_regex_test_matches s :
  amount_regex_test s = true <-> matches_amount s.
Proof.
  split.
  - destruct s as [|c t]; [discriminate|]. simpl.
    intros H. apply andb_true_iff in H as [Hc H].
    destruct (skip_digits_split t) as [ds [Hds E]].
    destruct (skip_digits t) as [|p f] eqn:Hsk.
    + rewrite app_nil_r in E. subst t.
      exists (c :: ds). split; [discriminate|]. split; [apply all_digits_cons; auto|].
      left. reflexivity.
    + apply andb_true_iff in H as [Hp H].
      apply Ascii.eqb_eq in Hp. subst p.
      destruct f as [|d f']; [discriminate|].
      exists (c :: ds). split; [discriminate|]. split; [apply all_digits_cons; auto|].
      right. exists (d :: f'). split; [discriminate|]. split; [exact H|].
      simpl. f_equal. exact E.
  - intros [ip [Hne [Hip [E | [fp [Hfne [Hfp E]]]]]]]; subst s;
      destruct ip as [|c ip']; try congruence;
      apply all_digits_cons in Hip as [Hc Hip'].
    + simpl. rewrite Hc, skip_digits_all by assumption. reflexivity.
    + simpl. rewrite Hc, skip_digits_stop by (assumption || reflexivity).
      destruct fp as [|d f']; [congruence|]. exact Hfp.
Qed.

(** ** [trim] and [split] on amounts *)

Lemma trimEnd_last s c : is_space c = false -> trimEnd (s ++ [c]) = s ++ [c].
Proof.
  intros H. unfold trimEnd. rewrite rev_app_distr. simpl. rewrite H.
  simpl. rewrite rev_involutive. reflexivity.
Qed.

Lemma trim_digit_ends c s d :
  is_digit c = true -> is_digit d = true -> trim (c :: s ++ [d]) = c :: s ++ [d].
Proof.
  intros Hc Hd. unfold trim. simpl. rewrite (is_digit_not_space c Hc).
  change (c :: s ++ [d]) with ((c :: s) ++ [d]).
  apply trimEnd_last, is_digit_not_space, Hd.
Qed.

Lemma trim_single_digit c : is_digit c = true -> trim [c] = [c].
Proof.
  intros Hc. unfold trim, trimEnd. simpl. rewrite (is_digit_not_space c Hc).
  simpl. rewrite (is_digit_not_space c Hc). reflexivity.
Qed.

Lemma all_digits_last s :
  s <> [] -> all_digits s -> exists s' d, s = s' ++ [d] /\ is_digit d = true.
Proof.
  intros Hne H. destruct (exists_last Hne) as [s' [d E]]. subst s.
  exists s', d. split; [reflexivity|].
  apply all_digits_app in H as [_ H]. apply all_digits_cons in H. tauto.
Qed.

Lemma trim_matches s : matches_amount s -> trim s = s.
Proof.
  intros [ip [Hne [Hip [E | [fp [Hfne [Hfp E]]]]]]]; subst s;
    destruct ip as [|c ip']; try congruence;
    pose proof Hip as Hip0; apply all_digits_cons in Hip as [Hc Hip'].
  - destruct ip' as [|c' ip'']; [apply trim_single_digit, Hc|].
    destruct (all_digits_last (c' :: ip'')) as [s' [d [E Hd]]];
      [discriminate | assumption |].
    rewrite E. apply trim_digit_ends; assumption.
  - destruct (all_digits_last fp Hfne Hfp) as [s' [d [E Hd]]]. subst fp.
    replace ((c :: ip') ++ "."%char :: s' ++ [d])
      with (c :: (ip' ++ "."%char :: s') ++ [d])
      by (simpl; rewrite <- app_assoc; reflexivity).
    apply trim_digit_ends; assumption.
Qed.

Lemma split_digits a : all_digits a -> split "." a = [a].
Proof.
  induction a as [|c a IH]; [reflexivity|].
  intros H. apply all_digits_cons in H as [Hc Ha].
  simpl. rewrite (is_digit_not_dot c Hc), (IH Ha). reflexivity.
Qed.

Lemma split_digits_dot a b :
  all_digits a -> split "." (a ++ "."%char :: b) = a :: split "." b.
Proof.
  induction a as [|c a IH]; [reflexivity|].
  intros H. apply all_digits_cons in H as [Hc Ha].
  simpl. rewrite (is_digit_not_dot c Hc), (IH Ha). reflexivity.
Qed.

(** How [parseAmount] takes a matching string apart. *)
Lemma parts_of_matches s :
  matches_amount s ->
  integer_of s <> [] /\ all_digits (integer_of s) /\ all_digits (fraction_of s) /\
  ((fraction_of s = [] /\ s = integer_of s) \/
   (fraction_of s <> [] /\ s = integer_of s ++ "."%char :: fraction_of s)).
Proof.
  unfold integer_of, fraction_of, integerPart_of, decimalPart_of.
  intros [ip [Hne [Hip [E | [fp [Hfne [Hfp E]]]]]]]; subst s.
  - rewrite split_digits by assumption. simpl.
    repeat split; try assumption. left. split; reflexivity.
  - rewrite split_digits_dot, split_digits by assumption. simpl.
    repeat split; try assumption. right. split; [assumption | reflexivity].
Qed.

Lemma padEnd_length s n :
  Z.of_nat (length s) <= n -> Z.of_nat (length (padEnd s n "0")) = n.
Proof.
  intros H. unfold padEnd. rewrite length_app, repeat_length. lia.
Qed.

Lemma parseAmount_accepts amount decimals :
  amount_regex_test (trim amount) = true ->
  Z.of_nat (length (fraction_of (trim amount))) <= decimals ->
  parseAmount amount decimals
  = Return (digits_value (integer_of (trim amount)
                          ++ padEnd (fraction_of (trim amount)) decimals "0")).
Proof.
  intros Hre Hlen. unfold parseAmount.
  destruct (trim amount) as [|c t] eqn:Ht; [discriminate Hre|].
  rewrite Hre. cbn [negb].
  fold (fraction_of (c :: t)). fold (integer_of (c :: t)).
  destruct (Z.gtb_spec (Z.of_nat (length (fraction_of (c :: t)))) decimals) as [Hgt|_];
    [lia|].
  apply amount_regex_test_matches, parts_of_matches in Hre
    as [_ [Hip [Hfp _]]].
  unfold BigInt.
  replace (forallb is_digit
             (integer_of (c :: t) ++ padEnd (fraction_of (c :: t)) decimals "0"))
    with true; [reflexivity|].
  symmetry. apply all_digits_app. split; [assumption|].
  apply all_digits_app. split; [assumption | apply all_digits_repeat_0].
Qed.

(** ** Decimal literals as rationals *)

Lemma pow10_pos k : Z.pos (pow10 k) = 10 ^ Z.of_nat k.
Proof.
  unfold pow10. apply Z2Pos.id. apply Z.pow_pos_nonneg; lia.
Qed.

Lemma scaled_decimal a b k m :
  0 <= m ->
  ((inject_Z a + Qmake b (pow10 k)) * inject_Z (10 ^ (Z.of_nat k + m))
   == inject_Z (a * 10 ^ (Z.of_nat k + m) + b * 10 ^ m))%Q.
Proof.
  intros Hm. unfold Qeq, Qmult, Qplus, inject_Z. cbn [Qnum Qden].
  rewrite !Pos.mul_1_l, !Pos.mul_1_r, pow10_pos.
  rewrite Z.pow_add_r by lia. ring.
Qed.

Lemma numeric_value_integer ip :
  ip <> [] -> all_digits ip -> numeric_value ip = Some (inject_Z (digits_value ip)).
Proof.
  intros Hne Hd. unfold numeric_value. rewrite split_digits by assumption.
  destruct ip; [congruence|]. rewrite Hd. reflexivity.
Qed.

Lemma numeric_value_point ip fp :
  ip ++ fp <> [] -> all_digits ip -> all_digits fp ->
  numeric_value (ip ++ "."%char :: fp)
  = Some (inject_Z (digits_value ip) + Qmake (digits_value fp) (pow10 (length fp)))%Q.
Proof.
  intros Hne Hi Hf. unfold numeric_value.
  rewrite split_digits_dot, split_digits by assumption.
  destruct (ip ++ fp); [congruence|]. rewrite Hi, Hf. reflexivity.
Qed.

Lemma denotes_scaled_eq a b n d :
  0 <= d -> denotes_scaled a n d -> denotes_scaled b n d -> numerically_equal a b.
Proof.
  intros Hd [qa [Ea Ha]] [qb [Eb Hb]]. unfold numerically_equal.
  rewrite Ea, Eb. rewrite <- Hb in Ha.
  apply Qmult_inj_r in Ha; [exact Ha|].
  unfold Qeq, inject_Z. cbn [Qnum Qden].
  assert (0 < 10 ^ d) by (apply Z.pow_pos_nonneg; lia). lia.
Qed.

(** What an accepted amount denotes, scaled by [10^decimals], is what
    [parseAmount] computes from its digits. *)
Lemma matches_denotes s decimals :
  matches_amount s ->
  Z.of_nat (length (fraction_of s)) <= decimals ->
  denotes_scaled s
    (digits_value (integer_of s ++ padEnd (fraction_of s) decimals "0")) decimals.
Proof.
  intros Hm Hlen.
  destruct (parts_of_matches s Hm) as [Hne [Hip [Hfp Hcase]]].
  rewrite digits_value_app, padEnd_length by assumption.
  unfold padEnd. rewrite digits_value_app, digits_value_repeat_0, repeat_length.
  set (ip := integer_of s) in *. set (fp := fraction_of s) in *.
  replace decimals with (Z.of_nat (length fp) + (decimals - Z.of_nat (length fp))) at 1 3
    by lia.
  replace (Z.of_nat (Z.to_nat decimals - length fp))
    with (decimals - Z.of_nat (length fp)) by lia.
  destruct Hcase as [[Hnil E] | [Hfne E]].
  - exists (inject_Z (digits_value ip)). split.
    + rewrite E at 1. apply numeric_value_integer; assumption.
    + rewrite Hnil. cbn [length digits_value fold_left Z.of_nat].
      unfold Qeq, Qmult, inject_Z. cbn [Qnum Qden Pos.mul]. ring.
  - eexists. split.
    + rewrite E at 1. apply numeric_value_point; try assumption.
      intros H. apply app_eq_nil in H. tauto.
    + rewrite scaled_decimal by lia.
      unfold Qeq, inject_Z. cbn [Qnum Qden]. ring.
Qed.

(** ** [formatAmount] *)

Lemma rel_index_zero len : rel_index len 0 = 0%nat.
Proof. reflexivity. Qed.

Lemma rel_index_neg len d :
  1 <= d -> rel_index len (- d) = (len - Z.to_nat d)%nat.
Proof.
  intros Hd. unfold rel_index.
  destruct (Z.ltb_spec (- d) 0); lia.
Qed.

Lemma denotes_point ip fp n d :
  ip ++ fp <> [] -> all_digits ip -> all_digits fp ->
  Z.of_nat (length fp) = d -> digits_value (ip ++ fp) = n ->
  denotes_scaled (ip ++ "."%char :: fp) n d.
Proof.
  intros Hne Hi Hf Hd Hn. subst d n. eexists. split.
  - apply numeric_value_point; assumption.
  - pose proof (scaled_decimal (digits_value ip) (digits_value fp)
                  (length fp) 0 (Z.le_refl 0)) as H.
    rewrite Z.add_0_r in H. rewrite H, digits_value_app.
    unfold Qeq, inject_Z. cbn [Qnum Qden]. ring.
Qed.

(** With at least one decimal place, [formatAmount] writes [n / 10^d]. *)
Lemma formatAmount_denotes n d :
  0 <= n -> 1 <= d ->
  denotes_scaled (formatAmount Number_toString (BigIntAmount n) d) n d.
Proof.
  intros Hn Hd. destruct (toString_nonneg n Hn) as [Hdig [Hne Hval]].
  unfold formatAmount. cbn [amount_toString]. set (t := toString n) in *.
  destruct (Z.leb_spec (Z.of_nat (length t)) d) as [Hle|Hgt].
  - change (list_ascii_of_string "0." ++ padStart t d "0")
      with (["0"%char] ++ "."%char :: padStart t d "0").
    apply denotes_point.
    + discriminate.
    + reflexivity.
    + apply all_digits_app. split; [apply all_digits_repeat_0 | assumption].
    + unfold padStart. rewrite length_app, repeat_length. lia.
    + unfold padStart.
      rewrite !digits_value_app, digits_value_repeat_0.
      change (digits_value ["0"%char]) with 0. lia.
  - unfold slice, slice_from.
    rewrite rel_index_zero, rel_index_neg, Nat.sub_0_r by assumption.
    cbn [skipn]. set (k := (length t - Z.to_nat d)%nat).
    change (firstn k t ++ list_ascii_of_string "." ++ skipn k t)
      with (firstn k t ++ "."%char :: skipn k t).
    pose proof (firstn_skipn k t) as Ht.
    assert (Hi : all_digits (firstn k t) /\ all_digits (skipn k t)).
    { apply all_digits_app. rewrite Ht. assumption. }
    destruct Hi as [Hi Hf].
    apply denotes_point; try assumption.
    + rewrite Ht. assumption.
    + rewrite length_skipn. subst k. lia.
    + rewrite Ht. assumption.
Qed.

(** ** [parseAmount]: which inputs fail, and how *)

Lemma amount_errors_distinct d :
  EmptyAmount <> InvalidAmountFormat /\
  EmptyAmount <> TooManyDecimalPlaces d /\
  InvalidAmountFormat <> TooManyDecimalPlaces d.
Proof.
  unfold EmptyAmount, InvalidAmountFormat, TooManyDecimalPlaces.
  cbn [list_ascii_of_string app]. repeat split; discriminate.
Qed.

(** The decision list of [parseAmount], one line per check. *)
Lemma parseAmount_cases amount decimals :
  (trim amount = [] /\ parseAmount amount decimals = Throw EmptyAmount) \/
  (trim amount <> [] /\ amount_regex_test (trim amount) = false /\
   parseAmount amount decimals = Throw InvalidAmountFormat) \/
  (amount_regex_test (trim amount) = true /\
   decimals < Z.of_nat (length (fraction_of (trim amount))) /\
   parseAmount amount decimals = Throw (TooManyDecimalPlaces decimals)) \/
  (amount_regex_test (trim amount) = true /\
   Z.of_nat (length (fraction_of (trim amount))) <= decimals /\
   exists n, parseAmount amount decimals = Return n).
Proof.
  destruct (amount_regex_test (trim amount)) eqn:Hre.
  - destruct (Z.le_gt_cases (Z.of_nat (length (fraction_of (trim amount)))) decimals)
      as [Hle|Hgt].
    + right. right. right. repeat split; [assumption|].
      eexists. apply parseAmount_accepts; assumption.
    + right. right. left. repeat split; [assumption|].
      unfold parseAmount. destruct (trim amount) as [|c t]; [discriminate Hre|].
      rewrite Hre. cbn [negb]. fold (fraction_of (c :: t)).
      destruct (Z.gtb_spec (Z.of_nat (length (fraction_of (c :: t)))) decimals);
        [reflexivity | lia].
  - unfold parseAmount. destruct (trim amount) as [|c t] eqn:Ht.
    + left. split; reflexivity.
    + right. left. rewrite Hre. repeat split. discriminate.
Qed.

(** ** The amount codec: main results *)

(** X1. With one decimal place or more, formatting what [parseAmount]
    returned gives back a string that denotes the same number as the
    input. *)
Theorem formatAmount_parseAmount_roundtrip s d :
  amount_regex_test s = true ->
  Z.of_nat (length (fraction_of s)) <= d ->
  1 <= d ->
  exists n,
    parseAmount s d = Return n /\
    numerically_equal (formatAmount Number_toString (BigIntAmount n) d) s.
Proof.
  intros Hre Hlen Hd.
  pose proof (proj1 (amount_regex_test_matches s) Hre) as Hm.
  pose proof (trim_matches s Hm) as Ht.
  eexists. split.
  - rewrite parseAmount_accepts; rewrite Ht; try assumption. reflexivity.
  - apply (denotes_scaled_eq _ _
             (digits_value (integer_of s ++ padEnd (fraction_of s) d "0")) d);
      [lia | | apply matches_denotes; assumption].
    apply formatAmount_denotes; [|assumption].
    destruct (parts_of_matches s Hm) as [_ [Hip [Hfp _]]].
    apply digits_value_bounds.
    apply all_digits_app. split; [assumption|].
    apply all_digits_app. split; [assumption | apply all_digits_repeat_0].
Qed.

(** With no decimal places, [formatAmount] puts the point in front of
    all the digits, whatever the amount. *)
Lemma formatAmount_zero_decimals n :
  formatAmount Number_toString (BigIntAmount n) 0 = "."%char :: toString n.
Proof.
  unfold formatAmount, slice, slice_from. cbn [amount_toString].
  destruct (Z.leb_spec (Z.of_nat (length (toString n))) 0) as [H|_].
  - assert (E : toString n <> []).
    { destruct n as [|p|p].
      - discriminate.
      - apply toString_nonneg. lia.
      - unfold toString. cbn [Z.to_int NilEmpty.string_of_int list_ascii_of_string].
        discriminate. }
    destruct (toString n); [congruence | cbn [length] in H; lia].
  - reflexivity.
Qed.

(** C1. The round-trip law of the amount codec, for every decimals count
    [d >= 0], does not hold of the code at [d = 0]: ["5"] is accepted with
    no decimal places and parsed to [5], and [formatAmount 5n 0] is [".5"],
    which denotes one half, not five. ([slice(0, -0)] is the empty string
    and [slice(-0)] the whole one.) *)
Theorem roundtrip_fails_at_zero_decimals :
  amount_regex_test "5" = true /\
  Z.of_nat (length (fraction_of "5")) <= 0 /\
  parseAmount "5" 0 = Return 5 /\
  formatAmount Number_toString (BigIntAmount 5) 0 = list_ascii_of_string ".5" /\
  numeric_value (formatAmount Number_toString (BigIntAmount 5) 0)
  = Some (inject_Z 0 + (5 # 10))%Q /\
  numeric_value "5" = Some (inject_Z 5) /\
  ~ numerically_equal (formatAmount Number_toString (BigIntAmount 5) 0) "5".
Proof.
  repeat split; try reflexivity; try (simpl; lia).
  unfold numerically_equal. cbn. unfold Qeq. cbn. lia.
Qed.

(** C2. On every accepted input (the trimmed text matches the format and
    its fraction has at most [decimals] digits) [parseAmount] returns the
    non-negative integer written by the integer digits followed by the
    fraction digits right-padded with zeros to exactly [decimals] digits.
    Nothing is rounded: the result is exactly the number the text denotes
    times [10^decimals]. In particular ["1.5"] with 6 decimals is 1500000
    and ["0.000001"] is 1. *)
Theorem parseAmount_exact_base_units :
  (forall amount decimals,
      amount_regex_test (trim amount) = true ->
      Z.of_nat (length (fraction_of (trim amount))) <= decimals ->
      exists padded n,
        padded = fraction_of (trim amount)
                 ++ repeat "0"%char
                      (Z.to_nat decimals - length (fraction_of (trim amount))) /\
        Z.of_nat (length padded) = decimals /\
        parseAmount amount decimals = Return n /\
        n = digits_value (integer_of (trim amount) ++ padded) /\
        0 <= n /\
        denotes_scaled (trim amount) n decimals) /\
  parseAmount "1.5" 6 = Return 1500000 /\
  parseAmount "0.000001" 6 = Return 1.
Proof.
  split; [|split; reflexivity].
  intros amount decimals Hre Hlen.
  pose proof (proj1 (amount_regex_test_matches _) Hre) as Hm.
  destruct (parts_of_matches _ Hm) as [_ [Hip [Hfp _]]].
  do 2 eexists. split; [reflexivity|].
  split; [apply (padEnd_length _ _ Hlen)|].
  split; [apply parseAmount_accepts; assumption|].
  split; [reflexivity|].
  split.
  - apply digits_value_bounds.
    apply all_digits_app. split; [assumption|].
    apply all_digits_app. split; [assumption | apply all_digits_repeat_0].
  - apply matches_denotes; assumption.
Qed.

Lemma parseAmount_exact_base_units_witness :
  exists padded n,
    padded = list_ascii_of_string "250" /\
    Z.of_nat (length padded) = 3 /\
    parseAmount " 7.25 " 3 = Return n /\
    n = 7250 /\
    0 <= n /\
    denotes_scaled "7.25" n 3.
Proof.
  destruct (proj1 parseAmount_exact_base_units " 7.25 " 3)
    as [padded [n [E1 [E2 [E3 [E4 [E5 E6]]]]]]];
    [reflexivity | simpl; lia |].
  exists padded, n. subst padded. repeat split; assumption.
Defined.


End AmountCodecProperties.

Lemma formatAmount_parseAmount_roundtrip_sample :
  exists n,
    parseAmount "12.5" 3 = Return n /\
    numerically_equal
      (formatAmount Samples.Number_toString (BigIntAmount n) 3) "12.5".
Proof.
  apply (formatAmount_parseAmount_roundtrip Samples.Number_toString "12.5" 3);
    [reflexivity | simpl; lia | lia].
Defined.

(** ** Account derivation *)

Example hex_decode_sample :
  Buffer_from_hex "00ff1aZZ22" = [Byte.x00; Byte.xff; Byte.x1a].
Proof. reflexivity. Qed.

Example seed_of_sample_key :
  length (Buffer_from_hex (strip_0x StandIn.sample_key)) = 33%nat /\
  length (seed_of_key StandIn.sample_key) = 32%nat.
Proof. split; reflexivity. Qed.

Lemma startsWith_0x key :
  (if startsWith key "0x" then slice_from key 2 else key) = strip_0x key.
Proof.
  destruct key as [|a [|b rest]]; try reflexivity.
  - cbn [startsWith list_ascii_of_string strip_0x].
    rewrite andb_false_r. reflexivity.
  - cbn [startsWith list_ascii_of_string strip_0x].
    destruct (Ascii.eqb "0" a), (Ascii.eqb "x" b); reflexivity.
Qed.

Lemma firstn_skipn_app {A} (a b : list A) n :
  length a = n -> firstn n (a ++ b) = a /\ skipn n (a ++ b) = b.
Proof.
  intros <-. split.
  - rewrite firstn_app, firstn_all, Nat.sub_diag. cbn [firstn]. apply app_nil_r.
  - rewrite skipn_app, skipn_all, Nat.sub_diag. reflexivity.
Qed.

Lemma truthy_key key :
  (32 <= length (Buffer_from_hex (strip_0x key)))%nat -> truthy (VString key) = true.
Proof.
  destruct key; [cbn; lia | reflexivity].
Qed.

Section AccountDerivation.

Variable secretKeyToMnemonic : bytes -> completion jsstring.
Variable mnemonicToSecretKey : jsstring -> completion Account.

Local Abbreviation getAccount :=
  (getAlgorandAccount secretKeyToMnemonic mnemonicToSecretKey).

(** Every run with a provider asks it for the private key, once. *)
Lemma getAlgorandAccount_trace provider :
  trace (getAccount (Some provider)) = [ProviderRequest "private_key"].
Proof.
  unfold getAlgorandAccount, derive_account, io_try, io_bind, call, sdk.
  destruct (request provider "private_key") as [v|e].
  - destruct v; try reflexivity.
    destruct (negb (truthy (VString s))); [reflexivity|].
    destruct (secretKeyToMnemonic _) as [m|e]; [|destruct e; reflexivity].
    destruct (mnemonicToSecretKey m) as [a|e]; [|destruct e]; reflexivity.
  - destruct e; reflexivity.
Qed.

(** The run on a key string of 32 bytes or more, step by step. *)
Lemma getAlgorandAccount_steps provider key :
  request provider "private_key" = Return (VString key) ->
  (32 <= length (Buffer_from_hex (strip_0x key)))%nat ->
  outcome (getAccount (Some provider))
  = match secretKeyToMnemonic (seed_of_key key) with
    | Return m =>
        match mnemonicToSecretKey m with
        | Return a => Return {| address := addr a; mnemonic := m;
                                secretKey := VUint8Array (sk a) |}
        | Throw (JsError message) => Throw (AccountDerivationFailed message)
        | Throw e => Throw e
        end
    | Throw (JsError message) => Throw (AccountDerivationFailed message)
    | Throw e => Throw e
    end.
Proof.
  intros Hreq Hlen.
  unfold getAlgorandAccount, derive_account, io_try, io_bind, call, sdk,
    seed_of_key.
  rewrite Hreq, (truthy_key key Hlen), startsWith_0x. cbn [negb].
  destruct (secretKeyToMnemonic _) as [m|e]; [|destruct e; reflexivity].
  destruct (mnemonicToSecretKey m) as [a|e]; [|destruct e]; reflexivity.
Qed.

(** The key-pair convention of the ledger SDK: a 32-byte seed has a
    mnemonic, and the key pair of that mnemonic is the seed followed by
    its 32-byte public key, with the address encoding the public key. *)
Variable publicKeyOfSeed : bytes -> bytes.
Variable encodeAddress : bytes -> jsstring.

Hypothesis mnemonic_of_seed :
  forall seed, length seed = 32%nat ->
               exists m, secretKeyToMnemonic seed = Return m.
Hypothesis keypair_of_mnemonic :
  forall seed m, length seed = 32%nat ->
    secretKeyToMnemonic seed = Return m ->
    mnemonicToSecretKey m
    = Return {| addr := encodeAddress (publicKeyOfSeed seed);
                sk := seed ++ publicKeyOfSeed seed |}.
Hypothesis publicKey_length :
  forall seed, length seed = 32%nat -> length (publicKeyOfSeed seed) = 32%nat.

Lemma seed_of_key_length key :
  (32 <= length (Buffer_from_hex (strip_0x key)))%nat ->
  length (seed_of_key key) = 32%nat.
Proof. intros H. unfold seed_of_key. rewrite length_firstn. lia. Qed.

(** C4. The key string loses its optional [0x] prefix and is
    hex-decoded; the first 32 decoded bytes are the seed, with no error
    when more bytes are present; the account returned has a 64-byte
    [secretKey] whose first half is that seed and whose second half is
    the public key, and its address and mnemonic are those of the same
    seed. *)
Theorem getAlgorandAccount_derivation provider key :
  request provider "private_key" = Return (VString key) ->
  (32 <= length (Buffer_from_hex (strip_0x key)))%nat ->
  let seed := firstn 32 (Buffer_from_hex (strip_0x key)) in
  exists m secret,
    getAccount (Some provider)
    = ([ProviderRequest "private_key"],
       Return {| address := encodeAddress (publicKeyOfSeed seed);
                 mnemonic := m;
                 secretKey := VUint8Array secret |}) /\
    secretKeyToMnemonic seed = Return m /\
    length secret = 64%nat /\
    firstn 32 secret = seed /\
    skipn 32 secret = publicKeyOfSeed seed.
Proof.
  intros Hreq Hlen. cbv zeta.
  change (firstn 32 (Buffer_from_hex (strip_0x key))) with (seed_of_key key).
  pose proof (seed_of_key_length key Hlen) as Hseed.
  pose proof (getAlgorandAccount_trace provider) as Ht.
  pose proof (getAlgorandAccount_steps provider key Hreq Hlen) as Ho.
  set (seed := seed_of_key key) in *.
  destruct (mnemonic_of_seed seed Hseed) as [m Hm].
  pose proof (keypair_of_mnemonic seed m Hseed Hm) as Hk.
  exists m, (seed ++ publicKeyOfSeed seed).
  split; [|split; [exact Hm|]].
  - rewrite Hm, Hk in Ho. cbn [addr sk] in Ho.
    destruct (getAccount (Some provider)) as [t o].
    cbn [trace outcome fst snd] in Ht, Ho. subst t o. reflexivity.
  - rewrite length_app, Hseed, (publicKey_length seed Hseed).
    split; [reflexivity|].
    apply firstn_skipn_app. exact Hseed.
Qed.

(** C5. Two derivations from the same provider-returned key string of 32
    bytes or more, whatever the two provider sessions, both succeed and
    return the same address, the same mnemonic and the same secret
    key. *)
Theorem getAlgorandAccount_deterministic provider1 provider2 key :
  request provider1 "private_key" = Return (VString key) ->
  request provider2 "private_key" = Return (VString key) ->
  (32 <= length (Buffer_from_hex (strip_0x key)))%nat ->
  exists account1 account2,
    outcome (getAccount (Some provider1)) = Return account1 /\
    outcome (getAccount (Some provider2)) = Return account2 /\
    address account1 = address account2 /\
    mnemonic account1 = mnemonic account2 /\
    secretKey account1 = secretKey account2.
Proof.
  intros H1 H2 Hlen.
  pose proof (seed_of_key_length key Hlen) as Hseed.
  destruct (mnemonic_of_seed _ Hseed) as [m Hm].
  pose proof (keypair_of_mnemonic _ m Hseed Hm) as Hk.
  pose proof (getAlgorandAccount_steps provider1 key H1 Hlen) as O1.
  pose proof (getAlgorandAccount_steps provider2 key H2 Hlen) as O2.
  rewrite Hm, Hk in O1, O2.
  do 2 eexists. split; [exact O1|]. split; [exact O2|].
  repeat split.
Qed.

End AccountDerivation.

(** The stand-in SDK keeps the key-pair convention. *)
Lemma standin_mnemonic_of_seed seed :
  length seed = 32%nat -> exists m, StandIn.secretKeyToMnemonic seed = Return m.
Proof.
  intros H. unfold StandIn.secretKeyToMnemonic. rewrite H. eexists. reflexivity.
Qed.

Lemma standin_keypair_of_mnemonic seed m :
  length seed = 32%nat ->
  StandIn.secretKeyToMnemonic seed = Return m ->
  StandIn.mnemonicToSecretKey m
  = Return {| addr := StandIn.encodeAddress (StandIn.publicKeyOfSeed seed);
              sk := seed ++ StandIn.publicKeyOfSeed seed |}.
Proof.
  intros H. unfold StandIn.secretKeyToMnemonic. rewrite H. cbn [Nat.eqb].
  intros E. injection E as <-. unfold StandIn.mnemonicToSecretKey.
  rewrite map_map, (map_ext _ (fun b => b)), map_id; [reflexivity|].
  apply byte_of_ascii_of_byte.
Qed.

Lemma standin_publicKey_length seed :
  length seed = 32%nat -> length (StandIn.publicKeyOfSeed seed) = 32%nat.
Proof. intros H. exact H. Qed.

Lemma getAlgorandAccount_derivation_witness :
  exists m secret,
    getAlgorandAccount StandIn.secretKeyToMnemonic StandIn.mnemonicToSecretKey
      (Some (StandIn.provider StandIn.sample_key))
    = ([ProviderRequest "private_key"],
       Return {| address := StandIn.encodeAddress
                              (StandIn.publicKeyOfSeed
                                 (seed_of_key StandIn.sample_key));
                 mnemonic := m;
                 secretKey := VUint8Array secret |}) /\
    StandIn.secretKeyToMnemonic (seed_of_key StandIn.sample_key) = Return m /\
    length secret = 64%nat /\
    firstn 32 secret = seed_of_key StandIn.sample_key /\
    skipn 32 secret = StandIn.publicKeyOfSeed (seed_of_key StandIn.sample_key).
Proof.
  apply (getAlgorandAccount_derivation
           StandIn.secretKeyToMnemonic StandIn.mnemonicToSecretKey
           StandIn.publicKeyOfSeed StandIn.encodeAddress
           standin_mnemonic_of_seed standin_keypair_of_mnemonic
           standin_publicKey_length
           (StandIn.provider StandIn.sample_key) StandIn.sample_key).
  - reflexivity.
  - vm_compute. lia.
Defined.

Lemma getAlgorandAccount_deterministic_witness :
  exists account1 account2,
    outcome (getAlgorandAccount StandIn.secretKeyToMnemonic
               StandIn.mnemonicToSecretKey
               (Some (StandIn.provider StandIn.sample_key))) = Return account1 /\
    outcome (getAlgorandAccount StandIn.secretKeyToMnemonic
               StandIn.mnemonicToSecretKey
               (Some {| request := fun method =>
                          match method with
                          | [] => Throw (JsError "no method")
                          | _ => Return (VString StandIn.sample_key)
                          end |})) = Return account2 /\
    address account1 = address account2 /\
    mnemonic account1 = mnemonic account2 /\
    secretKey account1 = secretKey account2.
Proof.
  apply (getAlgorandAccount_deterministic
           StandIn.secretKeyToMnemonic StandIn.mnemonicToSecretKey
           StandIn.publicKeyOfSeed StandIn.encodeAddress
           standin_mnemonic_of_seed standin_keypair_of_mnemonic
           _ _ StandIn.sample_key).
  - reflexivity.
  - reflexivity.
  - vm_compute. lia.
Defined.

Lemma ProviderRequired_not_wrapped cause :
  ProviderRequired <> AccountDerivationFailed cause.
Proof.
  unfold ProviderRequired, AccountDerivationFailed.
  cbn [list_ascii_of_string app]. discriminate.
Qed.

(** C6. Without a provider, [getAlgorandAccount] fails with
    [ProviderRequired] and has issued no request to anything (with a
    provider, every run issues exactly the private-key request); the
    failure is the plain [ProviderRequired] error, not an
    [AccountDerivationFailed] wrapping. *)
Theorem getAlgorandAccount_null_provider
        (secretKeyToMnemonic : bytes -> completion jsstring)
        (mnemonicToSecretKey : jsstring -> completion Account) :
  getAlgorandAccount secretKeyToMnemonic mnemonicToSecretKey None
  = ([], Throw ProviderRequired) /\
  (forall cause, ProviderRequired <> AccountDerivationFailed cause) /\
  (forall provider,
      trace (getAlgorandAccount secretKeyToMnemonic mnemonicToSecretKey
               (Some provider))
      = [ProviderRequest "private_key"]).
Proof.
  split; [reflexivity|]. split.
  - apply ProviderRequired_not_wrapped.
  - apply getAlgorandAccount_trace.
Qed.

(** ** The batch signer *)

Section BatchSigner.

Variable signTransaction : bytes -> bytes -> completion SignedTxn.

Local Abbreviation sign_each' := (sign_each signTransaction).

Lemma sign_each_all secretKey transactions : forall signedTxns,
  (forall txn, In txn transactions ->
               exists s, signTransaction txn secretKey = Return s) ->
  exists blobs,
    sign_each' secretKey transactions signedTxns
    = (map SignTransaction transactions, Return (signedTxns ++ blobs)) /\
    Forall2 (signs_to signTransaction secretKey) transactions blobs.
Proof.
  induction transactions as [|txn rest IH]; intros acc Hall.
  - exists []. split; [cbn; rewrite app_nil_r; reflexivity | constructor].
  - destruct (Hall txn (or_introl eq_refl)) as [s Hs].
    destruct (IH (acc ++ [blob s])) as [blobs [E F]].
    { intros t Ht. apply Hall. right. exact Ht. }
    exists (blob s :: blobs). split.
    + cbn [sign_each map]. unfold io_bind, io_try, call, ret. rewrite Hs.
      cbn [app]. rewrite E, <- app_assoc. reflexivity.
    + constructor; [exists s; split; [assumption | reflexivity] | assumption].
Qed.

Lemma sign_each_first_failure secretKey pre bad post error : forall signedTxns,
  (forall txn, In txn pre -> exists s, signTransaction txn secretKey = Return s) ->
  signTransaction bad secretKey = Throw error ->
  sign_each' secretKey (pre ++ bad :: post) signedTxns
  = (map SignTransaction (pre ++ [bad]),
     Throw (TransactionSigningFailed (signing_failure_message error))).
Proof.
  induction pre as [|txn rest IH]; intros acc Hall Hbad.
  - cbn [app sign_each map]. unfold io_bind, io_try, call, throw. rewrite Hbad.
    destruct error; reflexivity.
  - destruct (Hall txn (or_introl eq_refl)) as [s Hs].
    cbn [app sign_each map]. unfold io_bind, io_try, call, ret. rewrite Hs.
    cbn [app]. rewrite IH; [reflexivity | | assumption].
    intros t Ht. apply Hall. right. exact Ht.
Qed.

(** C9. The signer returned by [createAlgorandSigner] signs the
    transactions one after the other in input order. When every
    transaction signs, it returns one blob per transaction, in the order
    of the inputs. When one does not, the call stops there, fails with
    [TransactionSigningFailed] carrying that transaction's failure
    message, and returns no blobs at all. *)
Theorem createAlgorandSigner_batch secretKey :
  (forall transactions,
      (forall txn, In txn transactions ->
                   exists s, signTransaction txn secretKey = Return s) ->
      exists blobs,
        createAlgorandSigner signTransaction secretKey transactions
        = (map SignTransaction transactions, Return blobs) /\
        length blobs = length transactions /\
        Forall2 (signs_to signTransaction secretKey) transactions blobs) /\
  (forall pre bad post error,
      (forall txn, In txn pre ->
                   exists s, signTransaction txn secretKey = Return s) ->
      signTransaction bad secretKey = Throw error ->
      createAlgorandSigner signTransaction secretKey (pre ++ bad :: post)
      = (map SignTransaction (pre ++ [bad]),
         Throw (TransactionSigningFailed (signing_failure_message error)))).
Proof.
  split.
  - intros transactions Hall.
    destruct (sign_each_all secretKey transactions [] Hall) as [blobs [E F]].
    exists blobs. split; [exact E|]. split; [|exact F].
    symmetry. eapply Forall2_length. exact F.
  - intros pre bad post error Hall Hbad.
    apply sign_each_first_failure; assumption.
Qed.

End BatchSigner.

Lemma createAlgorandSigner_batch_witness :
  (exists blobs,
      createAlgorandSigner StandIn.signTransaction [Byte.x07]
        [[Byte.x01]; [Byte.x02; Byte.x03]]
      = ([SignTransaction [Byte.x01]; SignTransaction [Byte.x02; Byte.x03]],
         Return blobs) /\
      length blobs = 2%nat /\
      Forall2 (signs_to StandIn.signTransaction [Byte.x07])
        [[Byte.x01]; [Byte.x02; Byte.x03]] blobs) /\
  createAlgorandSigner StandIn.signTransaction [Byte.x07]
    [[Byte.x01]; []; [Byte.x02]]
  = ([SignTransaction [Byte.x01]; SignTransaction []],
     Throw (TransactionSigningFailed "empty transaction")).
Proof.
  split.
  - apply (proj1 (createAlgorandSigner_batch StandIn.signTransaction [Byte.x07])
             [[Byte.x01]; [Byte.x02; Byte.x03]]).
    intros txn [<- | [<- | []]]; eexists; reflexivity.
  - apply (proj2 (createAlgorandSigner_batch StandIn.signTransaction [Byte.x07])
             [[Byte.x01]] [] [[Byte.x02]] (JsError "empty transaction")).
    + intros txn [<- | []]. eexists. reflexivity.
    + reflexivity.
Defined.

(** ** Signers and verification *)

Example ToUint8_wraps :
  map ToUint8 [1; 255; 256; -1] = [Byte.x01; Byte.xff; Byte.x00; Byte.xff].
Proof. reflexivity. Qed.

Example Uint8Array_from_mixed :
  Uint8Array_from Samples.ToNumber_other
    [VString "a"; VNumber (Finite (3 # 2)); VNumber (integer (-1));
     VNumber (Finite (-3 # 2)); VNumber NaN; VNull; VBoolean true; VUndefined]
  = Return [Byte.x00; Byte.x01; Byte.xff; Byte.xff; Byte.x00; Byte.x00;
            Byte.x01; Byte.x00].
Proof. reflexivity. Qed.

Example Uint8Array_from_bigint :
  Uint8Array_from Samples.ToNumber_other [VNumber (integer 1); VBigInt 2]
  = Throw (JsError "Cannot convert a BigInt value to a number").
Proof. reflexivity. Qed.

Lemma truncate_integer n : truncate (inject_Z n) = n.
Proof. unfold truncate, inject_Z. cbn [Qnum Qden]. apply Z.quot_1_r. Qed.

(** An array of numbers converts to the bytes of its elements, whatever
    the engine does on the other values. *)
Lemma Uint8Array_from_numbers ToNumber_other xs :
  Uint8Array_from ToNumber_other (map VNumber xs)
  = Return (map number_ToUint8 xs).
Proof.
  unfold Uint8Array_from. induction xs as [|x rest IH]; [reflexivity|].
  cbn [map map_throwing ToNumber bind]. rewrite IH. reflexivity.
Qed.

(** An array of integer numbers converts to each integer modulo 256. *)
Lemma Uint8Array_from_integers ToNumber_other ns :
  Uint8Array_from ToNumber_other (map (fun n => VNumber (integer n)) ns)
  = Return (map ToUint8 ns).
Proof.
  rewrite <- (map_map integer VNumber), Uint8Array_from_numbers, map_map.
  f_equal. apply map_ext. intros n.
  cbn [integer number_ToUint8]. rewrite truncate_integer. reflexivity.
Qed.

Lemma bytes_eqb_eq a b : bytes_eqb a b = true <-> a = b.
Proof.
  unfold bytes_eqb. destruct (list_eq_dec Byte.byte_eq_dec a b); split;
    congruence.
Qed.

(** The signer key [verifyWeb3AuthSignature] looks at: the first entry of
    the signer list when there is one, else the single signer. *)
Lemma txnSigner_of_cases decodedTxn :
  txnSigner_of decodedTxn
  = match sig decodedTxn with
    | None => None
    | Some s =>
        match signers s with
        | Some (Some k :: _) => Some k
        | _ => signer s
        end
    end.
Proof.
  unfold txnSigner_of, nullish.
  destruct (sig decodedTxn) as [s|]; [|reflexivity].
  destruct (signers s) as [[|[k|] l]|]; reflexivity.
Qed.

(** C7, as the code has it. [createWeb3AuthSigner] hands a [Uint8Array]
    secret key to the SDK as it is. Every plain array, whatever its
    elements, goes through [Uint8Array.from]: the signer is built over
    the converted bytes, and when the conversion of an element throws,
    that error is what is thrown. An array of
    numbers always converts (an array of integers to each of them modulo
    256). For every secret key that is neither a [Uint8Array] nor an
    array (a string in particular) [InvalidSecretKeyType] is thrown and
    no signer is built. *)
Theorem createWeb3AuthSigner_secretKey_shapes
        (ToNumber_other : js_value -> completion js_number)
        (Signer : Type)
        (makeBasicAccountTransactionSigner : jsstring -> bytes -> Signer)
        (address' mnemonic' : jsstring) :
  let account v :=
    {| address := address'; mnemonic := mnemonic'; secretKey := v |} in
  let create :=
    createWeb3AuthSigner ToNumber_other Signer makeBasicAccountTransactionSigner in
  (forall b,
      create (account (VUint8Array b))
      = Return (makeBasicAccountTransactionSigner address' b)) /\
  (forall l,
      create (account (VArray l))
      = match Uint8Array_from ToNumber_other l with
        | Return b => Return (makeBasicAccountTransactionSigner address' b)
        | Throw e => Throw e
        end) /\
  (forall xs,
      create (account (VArray (map VNumber xs)))
      = Return (makeBasicAccountTransactionSigner address'
                  (map number_ToUint8 xs))) /\
  (forall ns,
      create (account (VArray (map (fun n => VNumber (integer n)) ns)))
      = Return (makeBasicAccountTransactionSigner address' (map ToUint8 ns))) /\
  (forall v,
      match v with
      | VUint8Array _ | VArray _ => True
      | _ => create (account v) = Throw InvalidSecretKeyType
      end) /\
  (forall s, create (account (VString s)) = Throw InvalidSecretKeyType).
Proof.
  cbv zeta. repeat split; try reflexivity.
  - intros xs. unfold createWeb3AuthSigner. cbn.
    rewrite Uint8Array_from_numbers. reflexivity.
  - intros ns. unfold createWeb3AuthSigner. cbn.
    rewrite Uint8Array_from_integers. reflexivity.
  - intros v. destruct v; try reflexivity; exact I.
Qed.

(** C7, as the claim has it, fails: an array whose elements are not all
    numbers is another shape of secret key than a byte array or an array
    of numbers, and it does not fail with [InvalidSecretKeyType].
    [["a", 1.5, -1]] gets a signer over the bytes 0, 1 and 255; with
    every engine [[null, true, undefined]] gets one over 0, 1 and 0. *)
Lemma createWeb3AuthSigner_accepts_any_array :
  createWeb3AuthSigner Samples.ToNumber_other (jsstring * bytes) pair
    {| address := "AB"; mnemonic := "word";
       secretKey := VArray [VString "a"; VNumber (Finite (3 # 2));
                            VNumber (integer (-1))] |}
  = Return (list_ascii_of_string "AB", [Byte.x00; Byte.x01; Byte.xff]) /\
  createWeb3AuthSigner Samples.ToNumber_other (jsstring * bytes) pair
    {| address := "AB"; mnemonic := "word";
       secretKey := VArray [VString "a"; VNumber (Finite (3 # 2));
                            VNumber (integer (-1))] |}
  <> Throw InvalidSecretKeyType /\
  (forall ToNumber_other,
      createWeb3AuthSigner ToNumber_other (jsstring * bytes) pair
        {| address := "AB"; mnemonic := "word";
           secretKey := VArray [VNull; VBoolean true; VUndefined] |}
      = Return (list_ascii_of_string "AB", [Byte.x00; Byte.x01; Byte.x00])) /\
  createWeb3AuthSigner Samples.ToNumber_other (jsstring * bytes) pair
    {| address := "AB"; mnemonic := "word";
       secretKey := VArray [VNumber (integer 1); VBigInt 2] |}
  = Throw (JsError "Cannot convert a BigInt value to a number").
Proof.
  split; [reflexivity|]. split; [discriminate|]. split; reflexivity.
Qed.

(** The key the code extracts is the signer's key, as described. *)
Lemma txnSigner_of_signer_key decodedTxn key :
  txnSigner_of decodedTxn = Some key <-> signer_key_of decodedTxn key.
Proof.
  rewrite txnSigner_of_cases. split.
  - destruct (sig decodedTxn) as [s|] eqn:Hs; [|discriminate].
    destruct (signers s) as [[|[k|] rest]|] eqn:Hl; intros H.
    + apply (single_signer _ s); auto.
    + injection H as H. subst k. apply (first_of_signer_list _ s key rest); assumption.
    + apply (single_signer _ s); eauto.
    + apply (single_signer _ s); auto.
  - intros [s k rest Hs Hl | s k Hs Hl Hk]; rewrite Hs.
    + rewrite Hl. reflexivity.
    + destruct Hl as [-> | [-> | [rest ->]]]; exact Hk.
Qed.

Lemma no_signer_key decodedTxn :
  txnSigner_of decodedTxn = None <-> forall key, ~ signer_key_of decodedTxn key.
Proof.
  split.
  - intros H key Hk. apply txnSigner_of_signer_key in Hk. congruence.
  - intros H. destruct (txnSigner_of decodedTxn) as [k|] eqn:E; [|reflexivity].
    exfalso. apply (H k), txnSigner_of_signer_key, E.
Qed.

(** C8. [verifyWeb3AuthSignature] always returns a boolean and never
    throws. The signer's key it looks at is the first entry of the
    signer list, and the single signer when there is no such entry. It
    returns [true] exactly when the signed transaction decodes, that key
    is present, the account's address decodes, and the key and the
    address's public key are equal byte for byte; so it returns [false]
    when decoding fails, when neither a first list entry nor a single
    signer is present, and when the keys differ. *)
Theorem verifyWeb3AuthSignature_never_throws
        (decodeSignedTransaction : bytes -> completion DecodedSignedTxn)
        (decodeAddress : jsstring -> completion DecodedAddress)
        (signedTransaction : bytes) (account : AlgorandAccountFromWeb3Auth) :
  exists b,
    verifyWeb3AuthSignature decodeSignedTransaction decodeAddress
      signedTransaction account = Return b /\
    (b = true <->
     exists decodedTxn txnSigner decodedAddress,
       decodeSignedTransaction signedTransaction = Return decodedTxn /\
       signer_key_of decodedTxn txnSigner /\
       decodeAddress (address account) = Return decodedAddress /\
       txnSigner = publicKey decodedAddress) /\
    ((exists e, decodeSignedTransaction signedTransaction = Throw e) -> b = false) /\
    (forall decodedTxn,
        decodeSignedTransaction signedTransaction = Return decodedTxn ->
        (forall key, ~ signer_key_of decodedTxn key) -> b = false) /\
    (forall decodedTxn txnSigner decodedAddress,
        decodeSignedTransaction signedTransaction = Return decodedTxn ->
        signer_key_of decodedTxn txnSigner ->
        decodeAddress (address account) = Return decodedAddress ->
        txnSigner <> publicKey decodedAddress -> b = false) /\
    (forall decodedTxn txnSigner e,
        decodeSignedTransaction signedTransaction = Return decodedTxn ->
        signer_key_of decodedTxn txnSigner ->
        decodeAddress (address account) = Throw e -> b = false).
Proof.
  unfold verifyWeb3AuthSignature, try_catch, bind.
  destruct (decodeSignedTransaction signedTransaction) as [d|e] eqn:Hd.
  - destruct (txnSigner_of d) as [k|] eqn:Hk.
    + pose proof (proj1 (txnSigner_of_signer_key d k) Hk) as Hkey.
      assert (Huniq : forall k', signer_key_of d k' -> k' = k).
      { intros k' H'. apply txnSigner_of_signer_key in H'. congruence. }
      destruct (decodeAddress (address account)) as [a|e] eqn:Ha.
      * exists (bytes_eqb k (publicKey a)). split; [reflexivity|].
        split; [|split; [|split; [|split]]].
        -- rewrite bytes_eqb_eq. split.
           ++ intros E. exists d, k, a. repeat split; assumption.
           ++ intros [d' [k' [a' [E1 [E2 [E3 E4]]]]]].
              injection E1 as <-. apply Huniq in E2. congruence.
        -- intros [e E]. discriminate.
        -- intros d' E1 E2. injection E1 as <-. exfalso. apply (E2 k), Hkey.
        -- intros d' k' a' E1 E2 E3 Hne. injection E1 as <-.
           apply Huniq in E2. subst k'.
           destruct (bytes_eqb k (publicKey a)) eqn:Hb; [|reflexivity].
           apply bytes_eqb_eq in Hb. congruence.
        -- intros d' k' e E1 E2 E3. discriminate.
      * exists false. split; [reflexivity|]. repeat split; try congruence.
        intros [d' [k' [a' [E1 [E2 [E3 E4]]]]]]. congruence.
    + pose proof (proj1 (no_signer_key d) Hk) as Hnone.
      exists false. split; [reflexivity|]. repeat split; try congruence.
      intros [d' [k' [a' [E1 [E2 [E3 E4]]]]]]. injection E1 as <-.
      exfalso. exact (Hnone k' E2).
  - exists false. split; [reflexivity|]. repeat split; try congruence.
    intros [d' [k' [a' [E1 [E2 [E3 E4]]]]]]. congruence.
Qed.

(** ** [analyzeTransactionGroup] *)

Lemma fold_sizes transactions : forall sum,
  fold_left (fun sum txn => sum + Z.of_nat (length txn)) transactions sum
  = sum + total_bytes transactions.
Proof.
  unfold total_bytes.
  induction transactions as [|txn rest IH]; intros sum.
  - cbn. lia.
  - cbn [fold_left map]. rewrite IH. unfold list_sum. cbn [fold_right]. lia.
Qed.

Lemma js_div_positive a b :
  0 < b ->
  exists q, js_div a b = Finite q /\ (q == inject_Z a / inject_Z b)%Q.
Proof.
  intros Hb. unfold js_div.
  destruct (Z.eqb_spec b 0) as [->|_]; [lia|].
  eexists. split; [reflexivity|].
  destruct b as [|p|p]; try lia.
  unfold Qeq, Qdiv, Qmult, Qinv, inject_Z. cbn. lia.
Qed.

Example analyze_sample :
  analyzeTransactionGroup [[Byte.x01; Byte.x02]; [Byte.x03]; []]
  = {| count := 3; totalSize := 3; averageSize := Finite (3 # 3) |}.
Proof. reflexivity. Qed.

(** C10. [analyzeTransactionGroup] reads its argument only: for a
    non-empty list it returns the number of blobs, the sum of their byte
    lengths, and the quotient of the two; for the empty list nothing
    guards the division, which is [0 / 0] and gives [NaN]. *)
Theorem analyzeTransactionGroup_aggregate :
  (forall transactions,
      transactions <> [] ->
      count (analyzeTransactionGroup transactions)
      = Z.of_nat (length transactions) /\
      totalSize (analyzeTransactionGroup transactions)
      = total_bytes transactions /\
      exists q,
        averageSize (analyzeTransactionGroup transactions) = Finite q /\
        (q == inject_Z (total_bytes transactions)
              / inject_Z (Z.of_nat (length transactions)))%Q) /\
  averageSize (analyzeTransactionGroup []) = js_div 0 0 /\
  analyzeTransactionGroup [] = {| count := 0; totalSize := 0; averageSize := NaN |}.
Proof.
  split; [|split; reflexivity].
  intros transactions Hne. unfold analyzeTransactionGroup.
  cbn [count totalSize averageSize]. rewrite fold_sizes, Z.add_0_l.
  split; [reflexivity|]. split; [reflexivity|].
  apply js_div_positive. destruct transactions; [congruence | cbn [length]; lia].
Qed.

Lemma analyzeTransactionGroup_aggregate_witness :
  count (analyzeTransactionGroup [[Byte.x01; Byte.x02]; [Byte.x03]]) = 2 /\
  totalSize (analyzeTransactionGroup [[Byte.x01; Byte.x02]; [Byte.x03]]) = 3 /\
  exists q,
    averageSize (analyzeTransactionGroup [[Byte.x01; Byte.x02]; [Byte.x03]])
    = Finite q /\
    (q == inject_Z 3 / inject_Z 2)%Q.
Proof.
  apply (proj1 analyzeTransactionGroup_aggregate
           [[Byte.x01; Byte.x02]; [Byte.x03]]).
  discriminate.
Defined.

(** * Further properties *)

Example base64_samples :
  toString_base64 [Byte.x4d; Byte.x61; Byte.x6e] = list_ascii_of_string "TWFu" /\
  toString_base64 [Byte.x4d; Byte.x61] = list_ascii_of_string "TWE=" /\
  toString_base64 [Byte.x4d] = list_ascii_of_string "TQ==".
Proof. repeat split. Qed.

Example hex_sample :
  toString_hex [Byte.x00; Byte.xff; Byte.x1a] = list_ascii_of_string "00ff1a".
Proof. reflexivity. Qed.

Example decimalToBaseUnits_samples :
  decimalToBaseUnits "1.5" 6 = Return 1500000 /\
  decimalToBaseUnits "0.000001" 6 = Return 1 /\
  decimalToBaseUnits "000" 2 = Return 0 /\
  decimalToBaseUnits "1.2345678" 6 = Throw (TooManyDecimalPlacesMax 6).
Proof. repeat split. Qed.

Example strip_leading_zeros_samples :
  strip_leading_zeros "000" = list_ascii_of_string "0" /\
  strip_leading_zeros "0012" = list_ascii_of_string "12" /\
  strip_leading_zeros "00a" = list_ascii_of_string "0a" /\
  strip_leading_zeros "120" = list_ascii_of_string "120".
Proof. repeat split. Qed.

Example ellipseAddress_samples :
  ellipseAddress "ABCDEFGHIJKLMNOPQRSTUVWXYZ" 6 4
  = list_ascii_of_string "ABCDEF...WXYZ" /\
  ellipseAddress "ABCDEFGHIJ" 6 4 = list_ascii_of_string "ABCDEFGHIJ" /\
  ellipseAddress "ABCDEFGHIJK" 6 4 = list_ascii_of_string "ABCDEF...HIJK".
Proof. repeat split. Qed.

(** ** The amount codec, continued *)

Lemma trim_nonspace_ends c s d :
  is_space c = false -> is_space d = false ->
  trim (c :: s ++ [d]) = c :: s ++ [d].
Proof.
  intros Hc Hd. unfold trim. simpl. rewrite Hc.
  change (c :: s ++ [d]) with ((c :: s) ++ [d]).
  apply trimEnd_last, Hd.
Qed.

Lemma trimStart_keeps c s :
  In c s -> is_space c = false -> In c (trimStart s).
Proof.
  induction s as [|x t IH]; intros Hin Hc; [contradiction|].
  simpl. destruct (is_space x) eqn:Hx; [|exact Hin].
  destruct Hin as [->|Hin]; [congruence | auto].
Qed.

(** [trim] removes blanks only. *)
Lemma trim_keeps c s : In c s -> is_space c = false -> In c (trim s).
Proof.
  intros Hin Hc. unfold trim, trimEnd.
  apply (proj1 (in_rev _ c)). apply trimStart_keeps; [|assumption].
  apply (proj1 (in_rev _ c)). apply trimStart_keeps; assumption.
Qed.

Lemma all_digits_In s c : all_digits s -> In c s -> is_digit c = true.
Proof.
  unfold all_digits. rewrite forallb_forall. auto.
Qed.

(** A string with a character that is neither a digit nor the point is
    not an amount. *)
Lemma foreign_char_rejected amount decimals c :
  In c amount -> is_space c = false -> is_digit c = false -> c <> "."%char ->
  parseAmount amount decimals = Throw InvalidAmountFormat.
Proof.
  intros Hin Hs Hd Hp.
  pose proof (trim_keeps c amount Hin Hs) as Ht.
  assert (Hre : amount_regex_test (trim amount) = false).
  { destruct (amount_regex_test (trim amount)) eqn:E; [|reflexivity].
    apply amount_regex_test_matches in E.
    destruct E as [ip [_ [Hip [E | [fp [_ [Hfp E]]]]]]]; rewrite E in Ht.
    - rewrite (all_digits_In ip c Hip Ht) in Hd. discriminate.
    - apply in_app_or in Ht as [Ht | [Ht | Ht]].
      + rewrite (all_digits_In ip c Hip Ht) in Hd. discriminate.
      + congruence.
      + rewrite (all_digits_In fp c Hfp Ht) in Hd. discriminate. }
  destruct (parseAmount_cases amount decimals)
    as [[E _] | [[_ [_ E]] | [[E _] | [E _]]]]; try congruence.
  rewrite E in Ht. contradiction.
Qed.

Lemma padEnd_full s n : Z.of_nat (length s) = n -> padEnd s n "0" = s.
Proof.
  intros H. unfold padEnd. replace (Z.to_nat n - length s)%nat with 0%nat by lia.
  apply app_nil_r.
Qed.

Lemma parts_of_point ip fp :
  all_digits ip -> all_digits fp ->
  integer_of (ip ++ "."%char :: fp) = ip /\ fraction_of (ip ++ "."%char :: fp) = fp.
Proof.
  intros Hi Hf. unfold integer_of, fraction_of, integerPart_of, decimalPart_of.
  rewrite split_digits_dot, split_digits by assumption. split; reflexivity.
Qed.

Lemma point_matches ip fp :
  ip <> [] -> fp <> [] -> all_digits ip -> all_digits fp ->
  matches_amount (ip ++ "."%char :: fp).
Proof.
  intros. exists ip. split; [assumption|]. split; [assumption|].
  right. exists fp. auto.
Qed.

Lemma trimStart_id s :
  (forall c, In c s -> is_space c = false) -> trimStart s = s.
Proof.
  destruct s as [|x t]; [reflexivity|]. intros H. simpl.
  rewrite (H x (or_introl eq_refl)). reflexivity.
Qed.

Lemma trim_id s : (forall c, In c s -> is_space c = false) -> trim s = s.
Proof.
  intros H. unfold trim, trimEnd. rewrite (trimStart_id s H).
  rewrite trimStart_id, rev_involutive; [reflexivity|].
  intros c Hc. apply H. apply in_rev. exact Hc.
Qed.

Lemma trimStart_keeps_last l c :
  is_space c = false -> exists l', trimStart (l ++ [c]) = l' ++ [c].
Proof.
  intros Hc. induction l as [|x t IH].
  - exists []. simpl. rewrite Hc. reflexivity.
  - simpl. destruct (is_space x); [exact IH | exists (x :: t); reflexivity].
Qed.

(** [trim] keeps a first character that is not a blank. *)
Lemma trim_keeps_head c s :
  is_space c = false -> exists s', trim (c :: s) = c :: s'.
Proof.
  intros Hc. unfold trim. simpl trimStart. rewrite Hc. unfold trimEnd.
  cbn [rev]. destruct (trimStart_keeps_last (rev s) c Hc) as [l' ->].
  exists (rev l'). rewrite rev_app_distr. reflexivity.
Qed.

(** The characters of [toString]: digits, and the sign. *)
Lemma toString_chars n c :
  In c (toString n) -> is_digit c = true \/ c = "-"%char.
Proof.
  destruct n as [|p|p].
  - intros H. left. apply (all_digits_In (toString 0)); [reflexivity | exact H].
  - intros H. left.
    apply (all_digits_In (toString (Z.pos p))); [|exact H].
    apply toString_nonneg. lia.
  - unfold toString. cbn [Z.to_int NilEmpty.string_of_int list_ascii_of_string].
    intros [<- | H]; [right; reflexivity | left].
    eapply all_digits_In; [apply string_of_uint_digits | exact H].
Qed.

Lemma toString_negative n : n < 0 -> In "-"%char (toString n).
Proof.
  destruct n as [|p|p]; try lia. intros _. left. reflexivity.
Qed.

Lemma toString_nonempty n : toString n <> [].
Proof.
  destruct n as [|p|p].
  - discriminate.
  - apply toString_nonneg. lia.
  - discriminate.
Qed.

Lemma not_matching_rejected amount decimals :
  trim amount <> [] -> amount_regex_test (trim amount) = false ->
  parseAmount amount decimals = Throw InvalidAmountFormat.
Proof.
  intros Hne Hre.
  destruct (parseAmount_cases amount decimals)
    as [[E _] | [[_ [_ E]] | [[E _] | [E _]]]]; congruence.
Qed.

Section AmountCodecContinued.

(** The engine's [Number.prototype.toString]. *)
Variable Number_toString : js_number -> jsstring.

(** The two shapes of [formatAmount]'s result: zero-padded behind ["0."],
    or the text of the amount with a point put somewhere in it. *)
Lemma formatAmount_split amount d :
  (Z.of_nat (length (amount_toString Number_toString amount)) <= d /\
   formatAmount Number_toString amount d
   = "0"%char :: "."%char
       :: repeat "0"%char
            (Z.to_nat d - length (amount_toString Number_toString amount))
          ++ amount_toString Number_toString amount) \/
  (d < Z.of_nat (length (amount_toString Number_toString amount)) /\
   exists k,
     k = rel_index (length (amount_toString Number_toString amount)) (- d) /\
     formatAmount Number_toString amount d
     = firstn k (amount_toString Number_toString amount)
       ++ "."%char :: skipn k (amount_toString Number_toString amount)).
Proof.
  unfold formatAmount. cbv zeta.
  destruct (Z.leb_spec (Z.of_nat (length (amount_toString Number_toString amount))) d)
    as [Hle|Hgt].
  - left. split; [assumption | reflexivity].
  - right. split; [assumption|]. eexists. split; [reflexivity|].
    unfold slice, slice_from. rewrite rel_index_zero, Nat.sub_0_r. reflexivity.
Qed.

(** With one decimal place or more, an amount whose text is the decimal
    digits of [n >= 0] is written as an integer part, a point and
    exactly [d] fraction digits, which together are the digits of the
    amount. *)
Lemma formatAmount_shape amount n d :
  amount_toString Number_toString amount = toString n ->
  0 <= n -> 1 <= d ->
  exists ip fp,
    formatAmount Number_toString amount d = ip ++ "."%char :: fp /\
    ip <> [] /\ all_digits ip /\ all_digits fp /\
    Z.of_nat (length fp) = d /\ digits_value (ip ++ fp) = n.
Proof.
  intros Ht Hn Hd. destruct (toString_nonneg n Hn) as [Hdig [Hne Hval]].
  destruct (formatAmount_split amount d) as [[Hle E] | [Hgt [k [Hk E]]]];
    rewrite E; rewrite Ht in *; clear E Ht.
  - exists ["0"%char], (repeat "0"%char (Z.to_nat d - length (toString n)) ++ toString n).
    split; [reflexivity|]. split; [discriminate|]. split; [reflexivity|].
    split; [apply all_digits_app; split; [apply all_digits_repeat_0 | assumption]|].
    split.
    + rewrite length_app, repeat_length. lia.
    + rewrite !digits_value_app, digits_value_repeat_0.
      change (digits_value ["0"%char]) with 0. lia.
  - rewrite rel_index_neg in Hk by assumption.
    pose proof (firstn_skipn k (toString n)) as Ht.
    assert (Hi : all_digits (firstn k (toString n))
                 /\ all_digits (skipn k (toString n))).
    { apply all_digits_app. rewrite Ht. assumption. }
    exists (firstn k (toString n)), (skipn k (toString n)).
    split; [reflexivity|]. split.
    + intros E0. apply (f_equal (@length ascii)) in E0.
      rewrite length_firstn in E0. cbn [length] in E0. lia.
    + split; [apply Hi|]. split; [apply Hi|]. split.
      * rewrite length_skipn. lia.
      * rewrite Ht. assumption.
Qed.

(** A character of the amount's text is a character of the result. *)
Lemma formatAmount_keeps amount d c :
  In c (amount_toString Number_toString amount) ->
  In c (formatAmount Number_toString amount d).
Proof.
  intros Hin.
  destruct (formatAmount_split amount d) as [[_ E] | [_ [k [_ E]]]]; rewrite E.
  - right. right. apply in_or_app. right. exact Hin.
  - rewrite <- (firstn_skipn k (amount_toString Number_toString amount)) in Hin.
    apply in_app_or in Hin as [Hin | Hin]; apply in_or_app;
      [left | right; right]; exact Hin.
Qed.

(** X2. Parsing what [formatAmount] wrote gives the amount back, with one
    decimal place or more: for every [bigint] amount [n >= 0], and for
    a number amount when (and only as far as) its [toString] is the
    decimal digits of an integer [n >= 0]. *)
Theorem parseAmount_formatAmount :
  (forall n d,
      0 <= n -> 1 <= d ->
      parseAmount (formatAmount Number_toString (BigIntAmount n) d) d = Return n) /\
  (forall x n d,
      Number_toString x = toString n -> 0 <= n -> 1 <= d ->
      parseAmount (formatAmount Number_toString (NumberAmount x) d) d = Return n).
Proof.
  assert (H : forall amount n d,
             amount_toString Number_toString amount = toString n ->
             0 <= n -> 1 <= d ->
             parseAmount (formatAmount Number_toString amount d) d = Return n).
  { intros amount n d Ht Hn Hd.
    destruct (formatAmount_shape amount n d Ht Hn Hd)
      as [ip [fp [E [Hne [Hi [Hf [Hl Hv]]]]]]].
    assert (Hfne : fp <> []) by (intros ->; cbn in Hl; lia).
    pose proof (point_matches ip fp Hne Hfne Hi Hf) as Hm.
    destruct (parts_of_point ip fp Hi Hf) as [Ei Ef].
    rewrite E, parseAmount_accepts; rewrite (trim_matches _ Hm).
    - rewrite Ei, Ef, (padEnd_full fp d Hl), Hv. reflexivity.
    - apply amount_regex_test_matches, Hm.
    - rewrite Ef. lia. }
  split.
  - intros n d Hn Hd. apply H; [reflexivity | assumption | assumption].
  - intros x n d Ht Hn Hd. apply H; assumption.
Qed.

(** X3. With [d >= 1], for every [bigint] amount [n >= 0], and for a
    number amount whose [toString] is the decimal digits of an integer
    [n >= 0], [formatAmount] writes a string of the accepted format
    whose integer part is the quotient of [n] by [10^d] and whose
    fraction is the remainder, on exactly [d] digits. *)
Theorem formatAmount_quotient_remainder :
  (forall n d,
      0 <= n -> 1 <= d ->
      amount_regex_test (formatAmount Number_toString (BigIntAmount n) d) = true /\
      Z.of_nat (length (fraction_of
                          (formatAmount Number_toString (BigIntAmount n) d))) = d /\
      digits_value (integer_of (formatAmount Number_toString (BigIntAmount n) d))
      = n / 10 ^ d /\
      digits_value (fraction_of (formatAmount Number_toString (BigIntAmount n) d))
      = n mod 10 ^ d) /\
  (forall x n d,
      Number_toString x = toString n -> 0 <= n -> 1 <= d ->
      amount_regex_test (formatAmount Number_toString (NumberAmount x) d) = true /\
      Z.of_nat (length (fraction_of
                          (formatAmount Number_toString (NumberAmount x) d))) = d /\
      digits_value (integer_of (formatAmount Number_toString (NumberAmount x) d))
      = n / 10 ^ d /\
      digits_value (fraction_of (formatAmount Number_toString (NumberAmount x) d))
      = n mod 10 ^ d).
Proof.
  assert (H : forall amount n d,
             amount_toString Number_toString amount = toString n ->
             0 <= n -> 1 <= d ->
             amount_regex_test (formatAmount Number_toString amount d) = true /\
             Z.of_nat (length (fraction_of
                                 (formatAmount Number_toString amount d))) = d /\
             digits_value (integer_of (formatAmount Number_toString amount d))
             = n / 10 ^ d /\
             digits_value (fraction_of (formatAmount Number_toString amount d))
             = n mod 10 ^ d).
  { intros amount n d Ht Hn Hd.
    destruct (formatAmount_shape amount n d Ht Hn Hd)
      as [ip [fp [E [Hne [Hi [Hf [Hl Hv]]]]]]].
    assert (Hfne : fp <> []) by (intros ->; cbn in Hl; lia).
    destruct (parts_of_point ip fp Hi Hf) as [Ei Ef].
    rewrite E, Ei, Ef.
    split; [apply amount_regex_test_matches, point_matches; assumption|].
    split; [assumption|].
    rewrite digits_value_app, Hl in Hv.
    pose proof (digits_value_bounds fp Hf) as Hb. rewrite Hl in Hb.
    assert (H10 : 0 < 10 ^ d) by (apply Z.pow_pos_nonneg; lia).
    split.
    - apply (Z.div_unique _ _ _ (digits_value fp)); [lia | lia].
    - apply (Z.mod_unique _ _ (digits_value ip)); [lia | lia]. }
  split.
  - intros n d Hn Hd. apply H; [reflexivity | assumption | assumption].
  - intros x n d Ht Hn Hd. apply H; assumption.
Qed.

(** A number that the engine prints with an exponent is not written as
    an amount: [1e21] comes out as ["0.01e+21"], which [parseAmount]
    rejects. *)
Example formatAmount_exponent x :
  Number_toString x = list_ascii_of_string "1e+21" ->
  formatAmount Number_toString (NumberAmount x) 6
  = list_ascii_of_string "0.01e+21" /\
  parseAmount (formatAmount Number_toString (NumberAmount x) 6) 6
  = Throw InvalidAmountFormat.
Proof.
  intros H. unfold formatAmount. cbn [amount_toString]. rewrite H.
  split; reflexivity.
Qed.

(** A number is written from the digits the engine prints, which past
    2^53 are not those of the integer meant: [2**64] prints as
    ["18446744073709552000"]. *)
Example formatAmount_rounded_number x :
  Number_toString x = list_ascii_of_string "18446744073709552000" ->
  formatAmount Number_toString (NumberAmount x) 6
  = list_ascii_of_string "18446744073709.552000" /\
  formatAmount Number_toString (BigIntAmount (2 ^ 64)) 6
  = list_ascii_of_string "18446744073709.551616".
Proof.
  intros H. unfold formatAmount. cbn [amount_toString]. rewrite H.
  split; reflexivity.
Qed.

(** X4. With no decimal places, what [formatAmount] writes is never
    accepted back by [parseAmount], whatever the amount ([bigint] or
    number) and whatever the decimals count it is parsed with: it starts
    with the point, or is ["0."]. *)
Theorem formatAmount_zero_decimals_unparseable amount decimals :
  parseAmount (formatAmount Number_toString amount 0) decimals
  = Throw InvalidAmountFormat.
Proof.
  unfold formatAmount. cbv zeta.
  destruct (amount_toString Number_toString amount) as [|c t] eqn:Et.
  - reflexivity.
  - destruct (Z.leb_spec (Z.of_nat (length (c :: t))) 0) as [H|_];
      [cbn [length] in H; lia|].
    change (slice (c :: t) 0 (- 0) ++ list_ascii_of_string "."
            ++ slice_from (c :: t) (- 0))
      with ("."%char :: c :: t).
    destruct (trim_keeps_head "."%char (c :: t) eq_refl) as [s' Hs].
    apply not_matching_rejected; rewrite Hs; [discriminate | reflexivity].
Qed.

(** X5. A negative amount is never written in the accepted format: for
    every decimals count the result of [formatAmount] carries the minus
    sign, and [parseAmount] rejects it as [InvalidAmountFormat]. This is
    so for every negative [bigint], and for every number whose
    [toString] has a minus sign. *)
Theorem formatAmount_negative_unparseable :
  (forall n d decimals,
      n < 0 ->
      In "-"%char (formatAmount Number_toString (BigIntAmount n) d) /\
      parseAmount (formatAmount Number_toString (BigIntAmount n) d) decimals
      = Throw InvalidAmountFormat) /\
  (forall x d decimals,
      In "-"%char (Number_toString x) ->
      In "-"%char (formatAmount Number_toString (NumberAmount x) d) /\
      parseAmount (formatAmount Number_toString (NumberAmount x) d) decimals
      = Throw InvalidAmountFormat).
Proof.
  assert (H : forall amount d decimals,
             In "-"%char (amount_toString Number_toString amount) ->
             In "-"%char (formatAmount Number_toString amount d) /\
             parseAmount (formatAmount Number_toString amount d) decimals
             = Throw InvalidAmountFormat).
  { intros amount d decimals Hin.
    pose proof (formatAmount_keeps amount d _ Hin) as Hf.
    split; [exact Hf|].
    apply (foreign_char_rejected _ _ "-"%char); try reflexivity;
      [exact Hf | discriminate]. }
  split.
  - intros n d decimals Hn. apply H. apply toString_negative, Hn.
  - intros x d decimals Hin. apply H, Hin.
Qed.

End AmountCodecContinued.

Lemma parseAmount_formatAmount_witness :
  parseAmount (formatAmount Samples.Number_toString (BigIntAmount 1234567) 6) 6
  = Return 1234567 /\
  parseAmount
    (formatAmount Samples.Number_toString (NumberAmount (integer 1234567)) 6) 6
  = Return 1234567.
Proof.
  split.
  - apply (proj1 (parseAmount_formatAmount Samples.Number_toString)); lia.
  - apply (proj2 (parseAmount_formatAmount Samples.Number_toString)
             (integer 1234567) 1234567 6); [reflexivity | lia | lia].
Defined.

Lemma formatAmount_quotient_remainder_witness :
  (amount_regex_test
     (formatAmount Samples.Number_toString (BigIntAmount 1234567) 6) = true /\
   Z.of_nat (length (fraction_of
                       (formatAmount Samples.Number_toString
                          (BigIntAmount 1234567) 6))) = 6 /\
   digits_value (integer_of
                   (formatAmount Samples.Number_toString (BigIntAmount 1234567) 6))
   = 1234567 / 10 ^ 6 /\
   digits_value (fraction_of
                   (formatAmount Samples.Number_toString (BigIntAmount 1234567) 6))
   = 1234567 mod 10 ^ 6) /\
  (amount_regex_test
     (formatAmount Samples.Number_toString (NumberAmount (integer 42)) 3) = true /\
   Z.of_nat (length (fraction_of
                       (formatAmount Samples.Number_toString
                          (NumberAmount (integer 42)) 3))) = 3 /\
   digits_value (integer_of
                   (formatAmount Samples.Number_toString
                      (NumberAmount (integer 42)) 3))
   = 42 / 10 ^ 3 /\
   digits_value (fraction_of
                   (formatAmount Samples.Number_toString
                      (NumberAmount (integer 42)) 3))
   = 42 mod 10 ^ 3).
Proof.
  split.
  - apply (proj1 (formatAmount_quotient_remainder Samples.Number_toString)); lia.
  - apply (proj2 (formatAmount_quotient_remainder Samples.Number_toString)
             (integer 42) 42 3); [reflexivity | lia | lia].
Defined.

Lemma formatAmount_negative_unparseable_witness :
  (In "-"%char (formatAmount Samples.Number_toString (BigIntAmount (-5)) 6) /\
   parseAmount (formatAmount Samples.Number_toString (BigIntAmount (-5)) 6) 6
   = Throw InvalidAmountFormat) /\
  (In "-"%char
      (formatAmount Samples.Number_toString (NumberAmount (integer (-5))) 6) /\
   parseAmount
     (formatAmount Samples.Number_toString (NumberAmount (integer (-5))) 6) 6
   = Throw InvalidAmountFormat).
Proof.
  split.
  - apply (proj1 (formatAmount_negative_unparseable Samples.Number_toString)). lia.
  - apply (proj2 (formatAmount_negative_unparseable Samples.Number_toString)).
    left. reflexivity.
Defined.

Example formatAmount_negative_sample :
  formatAmount Samples.Number_toString (BigIntAmount (-5)) 6
  = list_ascii_of_string "0.0000-5" /\
  formatAmount Samples.Number_toString (NumberAmount (integer (-5))) 6
  = list_ascii_of_string "0.0000-5".
Proof. split; reflexivity. Qed.

Lemma parse_value ip fp d :
  Z.of_nat (length fp) <= d ->
  digits_value (ip ++ padEnd fp d "0")
  = digits_value ip * 10 ^ d + digits_value fp * 10 ^ (d - Z.of_nat (length fp)).
Proof.
  intros H. rewrite digits_value_app, padEnd_length by assumption.
  unfold padEnd. rewrite digits_value_app, digits_value_repeat_0, repeat_length.
  replace (Z.of_nat (Z.to_nat d - length fp)) with (d - Z.of_nat (length fp)) by lia.
  ring.
Qed.

(** What [parseAmount] returned, read back from its definition. *)
Lemma parseAmount_returns amount decimals n :
  parseAmount amount decimals = Return n ->
  amount_regex_test (trim amount) = true /\
  Z.of_nat (length (fraction_of (trim amount))) <= decimals /\
  n = digits_value (integer_of (trim amount)
                    ++ padEnd (fraction_of (trim amount)) decimals "0").
Proof.
  intros H.
  destruct (parseAmount_cases amount decimals)
    as [[_ E] | [[_ [_ E]] | [[_ [_ E]] | [Hre [Hlen _]]]]]; try congruence.
  split; [assumption|]. split; [assumption|].
  rewrite (parseAmount_accepts _ _ Hre Hlen) in H. congruence.
Qed.

(** X6. Two accepted amounts have the same base units exactly when they
    denote the same number: leading zeros and trailing fraction zeros do
    not matter, and nothing else is identified. *)
Theorem parseAmount_numeric_equality a b decimals na nb :
  parseAmount a decimals = Return na ->
  parseAmount b decimals = Return nb ->
  (na = nb <-> numerically_equal (trim a) (trim b)).
Proof.
  intros Ha Hb.
  apply parseAmount_returns in Ha as [Hra [Hla Ea]].
  apply parseAmount_returns in Hb as [Hrb [Hlb Eb]].
  apply amount_regex_test_matches in Hra, Hrb.
  pose proof (matches_denotes _ _ Hra Hla) as Da. rewrite <- Ea in Da.
  pose proof (matches_denotes _ _ Hrb Hlb) as Db. rewrite <- Eb in Db.
  assert (Hd : 0 <= decimals) by lia.
  split.
  - intros <-. apply (denotes_scaled_eq _ _ na decimals); assumption.
  - destruct Da as [qa [Qa Sa]], Db as [qb [Qb Sb]].
    unfold numerically_equal. rewrite Qa, Qb. intros Hq.
    rewrite Hq, Sb in Sa. unfold Qeq, inject_Z in Sa. cbn [Qnum Qden] in Sa. lia.
Qed.

Lemma parseAmount_numeric_equality_witness :
  1500000 = 1500000 <-> numerically_equal (trim " 1.5") (trim "01.500 ").
Proof.
  apply (parseAmount_numeric_equality " 1.5" "01.500 " 6); reflexivity.
Defined.

(** X7. Parsing with more decimal places scales the result: an amount
    accepted with [decimals] places is accepted with [decimals + k] and
    gives [10^k] times as many base units. *)
Theorem parseAmount_more_decimals amount decimals k n :
  parseAmount amount decimals = Return n -> 0 <= k ->
  parseAmount amount (decimals + k) = Return (n * 10 ^ k).
Proof.
  intros H Hk. apply parseAmount_returns in H as [Hre [Hlen E]].
  rewrite parseAmount_accepts by (assumption || lia). f_equal.
  rewrite E, !parse_value by lia.
  replace (decimals + k - Z.of_nat (length (fraction_of (trim amount))))
    with ((decimals - Z.of_nat (length (fraction_of (trim amount)))) + k) by lia.
  rewrite !Z.pow_add_r by lia. ring.
Qed.

Lemma parseAmount_more_decimals_witness :
  parseAmount "1.5" (2 + 4) = Return (150 * 10 ^ 4).
Proof. apply parseAmount_more_decimals; [reflexivity | lia]. Defined.

(** X8. A whole number (the test the mint and transfer forms make with
    [isWholeNumber]) is an accepted amount for every decimals count
    [d >= 0], worth its value times [10^d]. *)
Theorem parseAmount_whole_number v d :
  isWholeNumber v = true -> 0 <= d ->
  parseAmount v d = Return (digits_value v * 10 ^ d).
Proof.
  intros Hw Hd. unfold isWholeNumber in Hw.
  destruct v as [|c t] eqn:Ev; [discriminate|]. rewrite <- Ev in *.
  assert (Hne : v <> []) by (rewrite Ev; discriminate).
  assert (Hm : matches_amount v).
  { exists v. split; [assumption|]. split; [exact Hw | left; reflexivity]. }
  assert (Hi : integer_of v = v /\ fraction_of v = []).
  { unfold integer_of, fraction_of, integerPart_of, decimalPart_of.
    rewrite split_digits by exact Hw. split; reflexivity. }
  destruct Hi as [Hi Hf].
  rewrite parseAmount_accepts; rewrite (trim_matches v Hm).
  - rewrite Hi, Hf, parse_value by (cbn; lia). cbn [length digits_value fold_left].
    f_equal. ring.
  - apply amount_regex_test_matches, Hm.
  - rewrite Hf. cbn. lia.
Qed.

Lemma parseAmount_whole_number_witness :
  parseAmount "042" 3 = Return (digits_value "042" * 10 ^ 3).
Proof. apply parseAmount_whole_number; [reflexivity | lia]. Defined.

(** ** [decimalToBaseUnits] against [parseAmount] *)

Lemma digits_value_zero_cons t : digits_value ("0"%char :: t) = digits_value t.
Proof. rewrite digits_value_cons. change (digit_value "0") with 0. lia. Qed.

Lemma strip_leading_zeros_step z c t :
  strip_leading_zeros (z :: c :: t)
  = if Ascii.eqb z "0" && is_digit c then strip_leading_zeros (c :: t)
    else z :: c :: t.
Proof. reflexivity. Qed.

Lemma strip_leading_zeros_value s :
  digits_value (strip_leading_zeros s) = digits_value s.
Proof.
  induction s as [|z t IH]; [reflexivity|].
  destruct t as [|c t']; [reflexivity|].
  rewrite strip_leading_zeros_step.
  destruct (Ascii.eqb_spec z "0"%char) as [->|_]; [|reflexivity].
  destruct (is_digit c); cbn [andb]; [|reflexivity].
  rewrite IH, digits_value_zero_cons. reflexivity.
Qed.

Lemma strip_leading_zeros_digits s :
  all_digits s -> all_digits (strip_leading_zeros s).
Proof.
  induction s as [|z t IH]; [auto|].
  destruct t as [|c t']; [auto|].
  intros H. rewrite strip_leading_zeros_step.
  destruct (Ascii.eqb z "0" && is_digit c); [|exact H].
  apply IH. apply all_digits_cons in H. tauto.
Qed.

Lemma strip_leading_zeros_nonempty s : s <> [] -> strip_leading_zeros s <> [].
Proof.
  induction s as [|z t IH]; [congruence|].
  destruct t as [|c t']; [intros _; discriminate|].
  intros _. rewrite strip_leading_zeros_step.
  destruct (Ascii.eqb z "0" && is_digit c); [apply IH|]; discriminate.
Qed.

Lemma or_string_nil a : or_string a [] = a.
Proof. destruct a; reflexivity. Qed.

Lemma or_string_nonempty a b : a <> [] -> or_string a b = a.
Proof. destruct a; [congruence | reflexivity]. Qed.

Lemma amount_errors_distinct_max d :
  EmptyAmount <> TooManyDecimalPlacesMax d /\
  InvalidAmountFormat <> TooManyDecimalPlacesMax d.
Proof.
  unfold EmptyAmount, InvalidAmountFormat, TooManyDecimalPlacesMax.
  cbn [list_ascii_of_string app]. split; discriminate.
Qed.

(** The decision list of [decimalToBaseUnits], on the conditions of
    [parseAmount_cases]. *)
Lemma decimalToBaseUnits_cases value decimals :
  (trim value = [] /\ decimalToBaseUnits value decimals = Throw EmptyAmount) \/
  (trim value <> [] /\ amount_regex_test (trim value) = false /\
   decimalToBaseUnits value decimals = Throw InvalidAmountFormat) \/
  (amount_regex_test (trim value) = true /\
   decimals < Z.of_nat (length (fraction_of (trim value))) /\
   decimalToBaseUnits value decimals = Throw (TooManyDecimalPlacesMax decimals)) \/
  (amount_regex_test (trim value) = true /\
   Z.of_nat (length (fraction_of (trim value))) <= decimals /\
   decimalToBaseUnits value decimals = parseAmount value decimals).
Proof.
  destruct (amount_regex_test (trim value)) eqn:Hre.
  - pose proof (proj1 (amount_regex_test_matches _) Hre) as Hm.
    destruct (parts_of_matches _ Hm) as [Hne [Hip [Hfp _]]].
    assert (Hparts : or_string (nth 0 (split "." (trim value)) []) "0"
                     = integer_of (trim value) /\
                     or_string (nth 1 (split "." (trim value)) []) []
                     = fraction_of (trim value)).
    { rewrite or_string_nil. split; [|reflexivity].
      unfold integer_of, integerPart_of in *.
      destruct (split "." (trim value)) as [|p ps].
      - cbn in Hne. cbn. reflexivity.
      - cbn [nth] in *. apply or_string_nonempty. exact Hne. }
    destruct Hparts as [Hw Hf].
    unfold decimalToBaseUnits.
    destruct (trim value) as [|c t] eqn:Ht; [discriminate Hre|].
    rewrite Hre, Hw, Hf. cbn [negb].
    destruct (Z.gtb_spec (Z.of_nat (length (fraction_of (c :: t)))) decimals)
      as [Hgt|Hle].
    + right. right. left. repeat split. lia.
    + right. right. right. split; [reflexivity|]. split; [assumption|].
      rewrite parseAmount_accepts; rewrite Ht; try assumption.
      set (combined := integer_of (c :: t)
                       ++ padEnd (fraction_of (c :: t)) decimals "0").
      assert (Hc : all_digits combined).
      { apply all_digits_app. split; [assumption|].
        apply all_digits_app. split; [assumption | apply all_digits_repeat_0]. }
      assert (Hcn : combined <> []).
      { intros E. apply app_eq_nil in E. tauto. }
      rewrite or_string_nonempty by (apply strip_leading_zeros_nonempty, Hcn).
      unfold BigInt. rewrite (strip_leading_zeros_digits _ Hc).
      rewrite strip_leading_zeros_value. reflexivity.
  - unfold decimalToBaseUnits. destruct (trim value) as [|c t] eqn:Ht.
    + left. split; reflexivity.
    + right. left. rewrite Hre. repeat split. discriminate.
Qed.

(** X9. [decimalToBaseUnits] of the transfer form and [parseAmount] of
    the package accept the same inputs with the same base units, and
    reject the same inputs for the same reason; only the wording of the
    too-many-decimals message differs. *)
Theorem decimalToBaseUnits_agrees_with_parseAmount value decimals :
  (forall n, decimalToBaseUnits value decimals = Return n <->
             parseAmount value decimals = Return n) /\
  (decimalToBaseUnits value decimals = Throw EmptyAmount <->
   parseAmount value decimals = Throw EmptyAmount) /\
  (decimalToBaseUnits value decimals = Throw InvalidAmountFormat <->
   parseAmount value decimals = Throw InvalidAmountFormat) /\
  (decimalToBaseUnits value decimals = Throw (TooManyDecimalPlacesMax decimals) <->
   parseAmount value decimals = Throw (TooManyDecimalPlaces decimals)).
Proof.
  destruct (amount_errors_distinct decimals) as [D1 [D2 D3]].
  destruct (amount_errors_distinct_max decimals) as [M1 M2].
  destruct (decimalToBaseUnits_cases value decimals)
    as [[Ht E] | [[Ht [Hre E]] | [[Hre [Hlen E]] | [Hre [Hlen E]]]]];
    destruct (parseAmount_cases value decimals)
      as [[Ht' E'] | [[Ht' [Hre' E']] | [[Hre' [Hlen' E']] | [Hre' [Hlen' [n' E']]]]]];
    try congruence; try lia;
    try (rewrite Ht' in Hre; discriminate Hre);
    try (rewrite Ht in Hre'; discriminate Hre').
  - rewrite E, E'. repeat split; intros; congruence.
  - rewrite E, E'. repeat split; intros; congruence.
  - rewrite E, E'. repeat split; intros; congruence.
  - rewrite E, E'. repeat split; intros; congruence.
Qed.

(** ** Account derivation, continued *)

Lemma strip_0x_prefixed k : strip_0x ("0"%char :: "x"%char :: k) = k.
Proof. reflexivity. Qed.

Lemma strip_0x_unprefixed k : startsWith k "0x" = false -> strip_0x k = k.
Proof.
  intros H. rewrite <- startsWith_0x, H. reflexivity.
Qed.

Lemma Buffer_from_hex_pairs n : forall k extra,
  all_hex k -> length k = (2 * n)%nat ->
  Buffer_from_hex (k ++ extra) = Buffer_from_hex k ++ Buffer_from_hex extra /\
  length (Buffer_from_hex k) = n.
Proof.
  induction n as [|n IH]; intros k extra Hk Hl.
  - destruct k; [split; reflexivity | discriminate].
  - destruct k as [|h [|l rest]]; try (cbn in Hl; lia).
    assert (Hh : hex_digit h <> None) by (apply Hk; left; reflexivity).
    assert (Hlo : hex_digit l <> None) by (apply Hk; right; left; reflexivity).
    destruct (IH rest extra) as [E L].
    { intros c Hc. apply Hk. right. right. exact Hc. }
    { cbn [length] in Hl. lia. }
    cbn [app Buffer_from_hex].
    destruct (hex_digit h); [|congruence]. destruct (hex_digit l); [|congruence].
    rewrite E. cbn [app length]. split; [reflexivity | lia].
Qed.

Lemma hex_key_unprefixed k :
  all_hex k -> (2 <= length k)%nat -> startsWith k "0x" = false.
Proof.
  intros Hk Hl. destruct k as [|a [|b rest]]; try (cbn in Hl; lia).
  cbn [startsWith list_ascii_of_string].
  destruct (Ascii.eqb_spec "x"%char b) as [<-|_].
  - exfalso. apply (Hk "x"%char); [right; left; reflexivity | reflexivity].
  - rewrite andb_false_r. reflexivity.
Qed.

Section AccountDerivationEdges.

Variable secretKeyToMnemonic : bytes -> completion jsstring.
Variable mnemonicToSecretKey : jsstring -> completion Account.

Local Abbreviation getAccount :=
  (getAlgorandAccount secretKeyToMnemonic mnemonicToSecretKey).

(** What the derivation does with a seed. *)
Local Abbreviation derive_from_seed seed :=
  (match secretKeyToMnemonic seed with
   | Return m =>
       match mnemonicToSecretKey m with
       | Return a => Return {| address := addr a; mnemonic := m;
                               secretKey := VUint8Array (sk a) |}
       | Throw (JsError message) => Throw (AccountDerivationFailed message)
       | Throw e => Throw e
       end
   | Throw (JsError message) => Throw (AccountDerivationFailed message)
   | Throw e => Throw e
   end).

(** The run with a provider, by the provider's answer. *)
Lemma getAlgorandAccount_outcome provider :
  outcome (getAccount (Some provider))
  = match request provider "private_key" with
    | Return (VString (c :: s)) => derive_from_seed (seed_of_key (c :: s))
    | Return _ =>
        Throw (AccountDerivationFailed
                 "Failed to retrieve private key from Web3Auth provider")
    | Throw (JsError message) => Throw (AccountDerivationFailed message)
    | Throw e => Throw e
    end.
Proof.
  unfold getAlgorandAccount, derive_account, io_try, io_bind, call, sdk,
    seed_of_key.
  destruct (request provider "private_key") as [v|e].
  - destruct v as [| | | |[|c s]| | | | |]; try reflexivity.
    rewrite startsWith_0x. cbn [truthy negb].
    destruct (secretKeyToMnemonic _) as [m|e]; [|destruct e; reflexivity].
    destruct (mnemonicToSecretKey m) as [a|e]; [|destruct e]; reflexivity.
  - destruct e; reflexivity.
Qed.

Lemma derivation_failure_not_provider_required cause :
  AccountDerivationFailed cause <> ProviderRequired.
Proof. discriminate. Qed.

(** What is thrown inside the [try] comes out of the [catch]: an [Error]
    with the derivation prefix before its message, any other value as
    it is. *)
Lemma thrown_in_derivation_surfaces provider e0 :
  thrown_in_derivation secretKeyToMnemonic mnemonicToSecretKey provider e0 ->
  outcome (getAccount (Some provider))
  = Throw match e0 with
          | JsError cause => AccountDerivationFailed cause
          | JsNonError _ => e0
          end.
Proof.
  rewrite getAlgorandAccount_outcome.
  intros [e Hreq | v Hreq Hv | key e Hreq Hne Hm | key m e Hreq Hne Hm Hk];
    rewrite Hreq.
  - destruct e; reflexivity.
  - destruct v as [| | | |[|c s]| | | | |]; try reflexivity.
    exfalso. apply (Hv (c :: s)); [discriminate | reflexivity].
  - destruct key as [|c s]; [congruence|]. rewrite Hm. destruct e; reflexivity.
  - destruct key as [|c s]; [congruence|]. rewrite Hm, Hk. destruct e; reflexivity.
Qed.

(** X10. With a provider, [getAlgorandAccount] never throws
    [ProviderRequired], and whatever it throws was thrown inside the
    [try]: by the provider's request, as the missing-key error, or by
    one of the two SDK calls. An [Error] thrown there comes out as an
    [AccountDerivationFailed] that carries its message after the
    derivation prefix; a thrown value that is not an [Error] comes out
    unchanged. *)
Theorem getAlgorandAccount_errors_wrapped provider e :
  outcome (getAccount (Some provider)) = Throw e ->
  e <> ProviderRequired /\
  ((exists cause,
       thrown_in_derivation secretKeyToMnemonic mnemonicToSecretKey provider
         (JsError cause) /\
       e = AccountDerivationFailed cause) \/
   (exists value,
       thrown_in_derivation secretKeyToMnemonic mnemonicToSecretKey provider
         (JsNonError value) /\
       e = JsNonError value)).
Proof.
  rewrite getAlgorandAccount_outcome. intros H.
  assert (Hsrc : exists e0,
             thrown_in_derivation secretKeyToMnemonic mnemonicToSecretKey
               provider e0 /\
             e = match e0 with
                 | JsError cause => AccountDerivationFailed cause
                 | JsNonError _ => e0
                 end).
  { destruct (request provider "private_key") as [v|e0] eqn:Hreq.
    - assert (Hmissing :
                (forall key, key <> [] -> v <> VString key) ->
                Throw (A := AlgorandAccountFromWeb3Auth) e
                = Throw (AccountDerivationFailed
                           "Failed to retrieve private key from Web3Auth provider") ->
                exists e0,
                  thrown_in_derivation secretKeyToMnemonic mnemonicToSecretKey
                    provider e0 /\
                  e = match e0 with
                      | JsError cause => AccountDerivationFailed cause
                      | JsNonError _ => e0
                      end).
      { intros Hv E. injection E as ->. exists KeyRetrievalFailed.
        split; [apply (key_missing _ _ _ v); assumption | reflexivity]. }
      destruct v as [| | | |[|c s]| | | | |];
        try (apply Hmissing; [intros key Hne; try discriminate | symmetry; exact H]).
      + intros E. injection E as <-. congruence.
      + assert (Hne : c :: s <> []) by discriminate.
        destruct (secretKeyToMnemonic (seed_of_key (c :: s))) as [m|e1] eqn:Hm.
        * destruct (mnemonicToSecretKey m) as [a|e2] eqn:Hk; [discriminate|].
          exists e2. split; [apply (keypair_failed _ _ _ (c :: s) m); assumption|].
          destruct e2; injection H as <-; reflexivity.
        * exists e1. split; [apply (mnemonic_failed _ _ _ (c :: s)); assumption|].
          destruct e1; injection H as <-; reflexivity.
    - exists e0. split; [apply provider_rejected; assumption|].
      destruct e0; injection H as <-; reflexivity. }
  destruct Hsrc as [e0 [Hsrc ->]]. destruct e0 as [cause|value].
  - split; [apply derivation_failure_not_provider_required|].
    left. exists cause. split; [assumption | reflexivity].
  - split; [discriminate|].
    right. exists value. split; [assumption | reflexivity].
Qed.

(** X11. When the provider answers with anything but a non-empty string,
    the run fails with the missing-key message inside an
    [AccountDerivationFailed], and the SDK is not consulted: the result
    is the same for every SDK. *)
Theorem getAlgorandAccount_key_not_retrieved provider v :
  request provider "private_key" = Return v ->
  match v with VString (_ :: _) => False | _ => True end ->
  getAccount (Some provider)
  = ([ProviderRequest "private_key"],
     Throw (AccountDerivationFailed
              "Failed to retrieve private key from Web3Auth provider")).
Proof.
  intros Hreq Hv.
  pose proof (getAlgorandAccount_trace secretKeyToMnemonic mnemonicToSecretKey
                provider) as Ht.
  pose proof (getAlgorandAccount_outcome provider) as Ho. rewrite Hreq in Ho.
  destruct (getAccount (Some provider)) as [t o].
  cbn [trace outcome fst snd] in Ht, Ho. subst t o.
  destruct v as [| | | |[|c s]| | | | |]; try reflexivity. contradiction.
Qed.

(** Two providers whose key strings have the same seed give the same
    result. *)
Lemma getAlgorandAccount_by_seed provider1 provider2 k1 k2 :
  request provider1 "private_key" = Return (VString k1) ->
  request provider2 "private_key" = Return (VString k2) ->
  k1 <> [] -> k2 <> [] -> seed_of_key k1 = seed_of_key k2 ->
  getAccount (Some provider1) = getAccount (Some provider2).
Proof.
  intros H1 H2 N1 N2 E.
  pose proof (getAlgorandAccount_trace secretKeyToMnemonic mnemonicToSecretKey
                provider1) as T1.
  pose proof (getAlgorandAccount_trace secretKeyToMnemonic mnemonicToSecretKey
                provider2) as T2.
  pose proof (getAlgorandAccount_outcome provider1) as O1.
  pose proof (getAlgorandAccount_outcome provider2) as O2.
  rewrite H1 in O1. rewrite H2 in O2.
  destruct k1 as [|c1 s1]; [congruence|]. destruct k2 as [|c2 s2]; [congruence|].
  rewrite <- E in O2.
  destruct (getAccount (Some provider1)) as [t1 o1].
  destruct (getAccount (Some provider2)) as [t2 o2].
  cbn [trace outcome fst snd] in *. congruence.
Qed.

(** X12. The [0x] prefix is optional: a key string and the same string
    behind [0x] give the same result, success or failure, with any
    SDK. *)
Theorem getAlgorandAccount_prefix_optional provider1 provider2 k :
  k <> [] -> startsWith k "0x" = false ->
  request provider1 "private_key" = Return (VString k) ->
  request provider2 "private_key" = Return (VString ("0x" ++ k)) ->
  getAccount (Some provider1) = getAccount (Some provider2).
Proof.
  intros Hne Hp H1 H2.
  apply (getAlgorandAccount_by_seed _ _ k ("0x" ++ k)); try assumption.
  - discriminate.
  - unfold seed_of_key. cbn [list_ascii_of_string app].
    rewrite strip_0x_prefixed, (strip_0x_unprefixed k Hp). reflexivity.
Qed.

(** X13. Only the first 64 hexadecimal digits count: whatever follows 64
    hexadecimal digits in the key string (more digits or anything else)
    changes nothing in the result. *)
Theorem getAlgorandAccount_first_64_digits provider1 provider2 k extra :
  all_hex k -> length k = 64%nat ->
  request provider1 "private_key" = Return (VString k) ->
  request provider2 "private_key" = Return (VString (k ++ extra)) ->
  getAccount (Some provider1) = getAccount (Some provider2).
Proof.
  intros Hk Hl H1 H2.
  assert (Hne : k <> []) by (intros ->; discriminate Hl).
  apply (getAlgorandAccount_by_seed _ _ k (k ++ extra)); try assumption.
  - intros E. apply app_eq_nil in E. tauto.
  - assert (Hp : startsWith k "0x" = false) by (apply hex_key_unprefixed; [assumption | lia]).
    assert (Hp' : startsWith (k ++ extra) "0x" = false).
    { destruct k as [|a [|b rest]]; try discriminate Hl. exact Hp. }
    unfold seed_of_key.
    rewrite (strip_0x_unprefixed _ Hp), (strip_0x_unprefixed _ Hp').
    destruct (Buffer_from_hex_pairs 32 k extra Hk Hl) as [E L].
    rewrite E, firstn_app, L, Nat.sub_diag. cbn [firstn].
    rewrite app_nil_r. reflexivity.
Qed.

(** X14. A key string that decodes to fewer than 32 bytes (too short, or
    cut short by a character that is not a hexadecimal digit, such as an
    upper-case [0X] prefix) reaches the SDK with a short seed; with an
    SDK that refuses every seed that is not 32 bytes long, the run fails
    with that refusal inside an [AccountDerivationFailed]. *)
Theorem getAlgorandAccount_short_key provider key reason :
  (forall seed, length seed <> 32%nat ->
                secretKeyToMnemonic seed = Throw (JsError reason)) ->
  request provider "private_key" = Return (VString key) ->
  key <> [] ->
  (length (Buffer_from_hex (strip_0x key)) < 32)%nat ->
  outcome (getAccount (Some provider)) = Throw (AccountDerivationFailed reason).
Proof.
  intros Hsdk Hreq Hne Hlen.
  rewrite getAlgorandAccount_outcome, Hreq.
  destruct key as [|c s]; [congruence|].
  rewrite Hsdk; [reflexivity|].
  unfold seed_of_key. rewrite length_firstn. lia.
Qed.

(** The key-pair convention, as in the derivation theorem. *)
Variable publicKeyOfSeed : bytes -> bytes.
Variable encodeAddress : bytes -> jsstring.

Hypothesis mnemonic_of_seed :
  forall seed, length seed = 32%nat ->
               exists m, secretKeyToMnemonic seed = Return m.
Hypothesis keypair_of_mnemonic :
  forall seed m, length seed = 32%nat ->
    secretKeyToMnemonic seed = Return m ->
    mnemonicToSecretKey m
    = Return {| addr := encodeAddress (publicKeyOfSeed seed);
                sk := seed ++ publicKeyOfSeed seed |}.
Hypothesis publicKey_length :
  forall seed, length seed = 32%nat -> length (publicKeyOfSeed seed) = 32%nat.

(** X15. [getPublicKeyFromSecretKey] undoes the packing of the derived
    account: on the secret key of an account derived from 32 bytes or
    more of key material it returns the public key of the seed. *)
Theorem getPublicKeyFromSecretKey_of_derived provider key :
  request provider "private_key" = Return (VString key) ->
  (32 <= length (Buffer_from_hex (strip_0x key)))%nat ->
  exists account secret,
    outcome (getAccount (Some provider)) = Return account /\
    secretKey account = VUint8Array secret /\
    getPublicKeyFromSecretKey secret = Return (publicKeyOfSeed (seed_of_key key)).
Proof.
  intros Hreq Hlen.
  pose proof (getAlgorandAccount_steps secretKeyToMnemonic mnemonicToSecretKey
                provider key Hreq Hlen) as Ho.
  assert (Hseed : length (seed_of_key key) = 32%nat).
  { unfold seed_of_key. rewrite length_firstn. lia. }
  destruct (mnemonic_of_seed _ Hseed) as [m Hm].
  rewrite Hm, (keypair_of_mnemonic _ m Hseed Hm) in Ho. cbn [addr sk] in Ho.
  do 2 eexists. split; [exact Ho|]. split; [reflexivity|].
  unfold getPublicKeyFromSecretKey.
  rewrite length_app, Hseed, (publicKey_length _ Hseed).
  change (negb (32 + 32 =? 64)%nat) with false. cbv iota.
  f_equal. apply (proj2 (firstn_skipn_app _ _ 32%nat Hseed)).
Qed.

End AccountDerivationEdges.

Lemma all_hex_forallb s : forallb Samples.is_hex_digit s = true -> all_hex s.
Proof.
  rewrite forallb_forall. intros H c Hc. specialize (H c Hc).
  unfold Samples.is_hex_digit in H. destruct (hex_digit c); congruence.
Qed.

Lemma standin_rejects_short_seed seed :
  length seed <> 32%nat ->
  StandIn.secretKeyToMnemonic seed = Throw (JsError "Seed length must be 32").
Proof.
  intros H. unfold StandIn.secretKeyToMnemonic.
  destruct (Nat.eqb_spec (length seed) 32); [contradiction | reflexivity].
Qed.

Lemma getAlgorandAccount_errors_wrapped_witness :
  AccountDerivationFailed "Seed length must be 32" <> ProviderRequired /\
  ((exists cause,
       thrown_in_derivation StandIn.secretKeyToMnemonic
         StandIn.mnemonicToSecretKey (Samples.answering (VString "abcd"))
         (JsError cause) /\
       AccountDerivationFailed "Seed length must be 32"
       = AccountDerivationFailed cause) \/
   (exists value,
       thrown_in_derivation StandIn.secretKeyToMnemonic
         StandIn.mnemonicToSecretKey (Samples.answering (VString "abcd"))
         (JsNonError value) /\
       AccountDerivationFailed "Seed length must be 32" = JsNonError value)).
Proof.
  apply (getAlgorandAccount_errors_wrapped
           StandIn.secretKeyToMnemonic StandIn.mnemonicToSecretKey
           (Samples.answering (VString "abcd"))).
  reflexivity.
Defined.

(** A value that is not an [Error], thrown by the provider, is what the
    caller catches. *)
Example getAlgorandAccount_passes_non_error :
  outcome (getAlgorandAccount StandIn.secretKeyToMnemonic
             StandIn.mnemonicToSecretKey
             (Some {| request := fun _ => Throw (JsNonError "denied") |}))
  = Throw (JsNonError "denied").
Proof. reflexivity. Qed.

Lemma getAlgorandAccount_key_not_retrieved_witness :
  getAlgorandAccount StandIn.secretKeyToMnemonic StandIn.mnemonicToSecretKey
    (Some (Samples.answering VNull))
  = ([ProviderRequest "private_key"],
     Throw (AccountDerivationFailed
              "Failed to retrieve private key from Web3Auth provider")).
Proof.
  apply (getAlgorandAccount_key_not_retrieved _ _ _ VNull); [reflexivity | exact I].
Defined.

Lemma getAlgorandAccount_prefix_optional_witness :
  getAlgorandAccount StandIn.secretKeyToMnemonic StandIn.mnemonicToSecretKey
    (Some (Samples.answering (VString Samples.digits64)))
  = getAlgorandAccount StandIn.secretKeyToMnemonic StandIn.mnemonicToSecretKey
      (Some (Samples.answering (VString ("0x" ++ Samples.digits64)))).
Proof.
  apply (getAlgorandAccount_prefix_optional _ _ _ _ Samples.digits64);
    try reflexivity.
  discriminate.
Defined.

Lemma getAlgorandAccount_first_64_digits_witness :
  getAlgorandAccount StandIn.secretKeyToMnemonic StandIn.mnemonicToSecretKey
    (Some (Samples.answering (VString Samples.digits64)))
  = getAlgorandAccount StandIn.secretKeyToMnemonic StandIn.mnemonicToSecretKey
      (Some (Samples.answering (VString (Samples.digits64 ++ "20-and-more")))).
Proof.
  apply (getAlgorandAccount_first_64_digits _ _ _ _ Samples.digits64 "20-and-more");
    try reflexivity.
  apply all_hex_forallb. reflexivity.
Defined.

Lemma getAlgorandAccount_short_key_witness :
  outcome (getAlgorandAccount StandIn.secretKeyToMnemonic
             StandIn.mnemonicToSecretKey
             (Some (Samples.answering (VString ("0X" ++ Samples.digits64)))))
  = Throw (AccountDerivationFailed "Seed length must be 32").
Proof.
  apply (getAlgorandAccount_short_key _ _ _ ("0X" ++ Samples.digits64)).
  - apply standin_rejects_short_seed.
  - reflexivity.
  - discriminate.
  - vm_compute. lia.
Defined.

Lemma getPublicKeyFromSecretKey_of_derived_witness :
  exists account secret,
    outcome (getAlgorandAccount StandIn.secretKeyToMnemonic
               StandIn.mnemonicToSecretKey
               (Some (StandIn.provider StandIn.sample_key))) = Return account /\
    secretKey account = VUint8Array secret /\
    getPublicKeyFromSecretKey secret
    = Return (StandIn.publicKeyOfSeed (seed_of_key StandIn.sample_key)).
Proof.
  apply (getPublicKeyFromSecretKey_of_derived
           StandIn.secretKeyToMnemonic StandIn.mnemonicToSecretKey
           StandIn.publicKeyOfSeed StandIn.encodeAddress
           standin_mnemonic_of_seed standin_keypair_of_mnemonic
           standin_publicKey_length
           (StandIn.provider StandIn.sample_key) StandIn.sample_key).
  - reflexivity.
  - vm_compute. lia.
Defined.

(** ** Key and address helpers *)

(** X16. [getPublicKeyFromSecretKey] returns exactly on the 64-byte
    keys; what it returns is 32 bytes long and is the second half of the
    key. On any other length it throws, and the message ends with the
    actual length. *)
Theorem getPublicKeyFromSecretKey_halves secretKey :
  (length secretKey = 64%nat ->
   exists seed pk,
     getPublicKeyFromSecretKey secretKey = Return pk /\
     secretKey = seed ++ pk /\ length seed = 32%nat /\ length pk = 32%nat) /\
  (length secretKey <> 64%nat ->
   getPublicKeyFromSecretKey secretKey
   = Throw (JsError ("Invalid secret key length: expected 64 bytes, got "
                     ++ toString (Z.of_nat (length secretKey))))) /\
  (forall pk, getPublicKeyFromSecretKey secretKey = Return pk ->
              length secretKey = 64%nat).
Proof.
  unfold getPublicKeyFromSecretKey.
  destruct (Nat.eqb_spec (length secretKey) 64) as [E|N]; cbn [negb].
  - split; [|split; [congruence | auto]].
    intros _. exists (firstn 32 secretKey), (skipn 32 secretKey).
    split; [reflexivity|]. split; [symmetry; apply firstn_skipn|].
    rewrite length_firstn, length_skipn. lia.
  - split; [congruence|]. split; [reflexivity | discriminate].
Qed.

Lemma getPublicKeyFromSecretKey_halves_witness :
  exists seed pk,
    getPublicKeyFromSecretKey (repeat Byte.x01 32 ++ repeat Byte.x02 32)
    = Return pk /\
    repeat Byte.x01 32 ++ repeat Byte.x02 32 = seed ++ pk /\
    length seed = 32%nat /\ length pk = 32%nat.
Proof.
  apply (proj1 (getPublicKeyFromSecretKey_halves
                  (repeat Byte.x01 32 ++ repeat Byte.x02 32))).
  reflexivity.
Defined.

Example getPublicKeyFromSecretKey_short :
  getPublicKeyFromSecretKey [Byte.x01; Byte.x02; Byte.x03]
  = Throw (JsError "Invalid secret key length: expected 64 bytes, got 3").
Proof. reflexivity. Qed.

Section AddressChecks.

Variable decodeSignedTransaction : bytes -> completion DecodedSignedTxn.
Variable decodeAddress : jsstring -> completion DecodedAddress.

(** X17. [isValidAlgorandAddress] never throws: it answers [true] exactly
    for a non-empty string that the SDK decodes, and [false] for the
    empty string, for a value that is not a string, and when decoding
    throws. *)
Theorem isValidAlgorandAddress_never_throws address :
  exists b,
    isValidAlgorandAddress decodeAddress address = Return b /\
    (b = true <->
     exists s decoded,
       address = VString s /\ s <> [] /\ decodeAddress s = Return decoded).
Proof.
  unfold isValidAlgorandAddress, try_catch, bind.
  destruct address as [| | | |[|c s]| | | | |];
    try (exists false; split; [reflexivity|];
         split; [discriminate | intros [s' [d' [E _]]]; discriminate E]).
  - exists false. split; [reflexivity|]. split; [discriminate|].
    intros [s' [d' [E [N _]]]]. injection E as <-. congruence.
  - cbn [truthy negb]. destruct (decodeAddress (c :: s)) as [d|e] eqn:Hd.
    + exists true. split; [reflexivity|]. split; [|reflexivity].
      intros _. exists (c :: s), d. repeat split; [discriminate | assumption].
    + exists false. split; [reflexivity|]. split; [discriminate|].
      intros [s' [d' [E [_ D]]]]. injection E as <-. congruence.
Qed.

(** X18. [verifyWeb3AuthSignature] can only answer [true] for an account
    whose (non-empty) address [isValidAlgorandAddress] accepts. *)
Theorem verified_account_has_valid_address signedTransaction account :
  address account <> [] ->
  verifyWeb3AuthSignature decodeSignedTransaction decodeAddress
    signedTransaction account = Return true ->
  isValidAlgorandAddress decodeAddress (VString (address account)) = Return true.
Proof.
  intros Hne. unfold verifyWeb3AuthSignature, isValidAlgorandAddress,
    try_catch, bind.
  destruct (address account) as [|c s]; [congruence|]. cbn [truthy negb].
  destruct (decodeSignedTransaction signedTransaction) as [d|e]; [|discriminate].
  destruct (txnSigner_of d) as [k|]; [|discriminate].
  destruct (decodeAddress (c :: s)); [reflexivity | discriminate].
Qed.

End AddressChecks.

Lemma verified_account_has_valid_address_witness :
  isValidAlgorandAddress AddressSamples.decodeAddress
    (VString (address AddressSamples.account)) = Return true.
Proof.
  apply (verified_account_has_valid_address
           AddressSamples.decodeSignedTransaction AddressSamples.decodeAddress
           [Byte.x41; Byte.x42] AddressSamples.account).
  - discriminate.
  - reflexivity.
Defined.

(** ** The batch signer, continued *)

Section BatchSignerOutcomes.

Variable signTransaction : bytes -> bytes -> completion SignedTxn.

Lemma first_failure secretKey transactions :
  (forall txn, In txn transactions ->
               exists s, signTransaction txn secretKey = Return s) \/
  (exists pre bad post error,
      transactions = pre ++ bad :: post /\
      (forall txn, In txn pre ->
                   exists s, signTransaction txn secretKey = Return s) /\
      signTransaction bad secretKey = Throw error).
Proof.
  induction transactions as [|txn rest IH].
  - left. intros txn [].
  - destruct (signTransaction txn secretKey) as [s|e] eqn:Hs.
    + destruct IH as [Hall | [pre [bad [post [error [E [Hpre Hbad]]]]]]].
      * left. intros t [<- | Ht]; [eauto | auto].
      * right. exists (txn :: pre), bad, post, error.
        split; [rewrite E; reflexivity|]. split; [|assumption].
        intros t [<- | Ht]; [eauto | auto].
    + right. exists [], txn, rest, e. split; [reflexivity|].
      split; [intros t [] | assumption].
Qed.

(** X19. Every run of the batch signer is one of two: it returns, and
    then each blob is the SDK's signature of the transaction at the same
    position and every transaction was submitted for signing, in order;
    or it throws, and then the error is a [TransactionSigningFailed] for
    the first transaction the SDK refused, and nothing after that
    transaction was submitted. It throws nothing else. *)
Theorem createAlgorandSigner_outcomes secretKey transactions :
  match createAlgorandSigner signTransaction secretKey transactions with
  | (calls, Return blobs) =>
      calls = map SignTransaction transactions /\
      Forall2 (signs_to signTransaction secretKey) transactions blobs
  | (calls, Throw e) =>
      exists pre bad post error,
        transactions = pre ++ bad :: post /\
        Forall (fun txn => exists s, signTransaction txn secretKey = Return s) pre /\
        signTransaction bad secretKey = Throw error /\
        e = TransactionSigningFailed (signing_failure_message error) /\
        calls = map SignTransaction (pre ++ [bad])
  end.
Proof.
  destruct (first_failure secretKey transactions)
    as [Hall | [pre [bad [post [error [E [Hpre Hbad]]]]]]].
  - destruct (sign_each_all signTransaction secretKey transactions [] Hall)
      as [blobs [Er F]].
    unfold createAlgorandSigner. rewrite Er. cbn [app]. split; [reflexivity | exact F].
  - unfold createAlgorandSigner.
    rewrite E, (sign_each_first_failure signTransaction secretKey pre bad post
                  error [] Hpre Hbad).
    exists pre, bad, post, error. repeat split; try assumption.
    apply Forall_forall. exact Hpre.
Qed.

End BatchSignerOutcomes.

(** ** Signer objects *)

Lemma indexes_from_seq {A} (l : list A) : forall i,
  indexes_from i l = map (fun j => i + Z.of_nat j) (seq 0 (length l)).
Proof.
  induction l as [|x rest IH]; intros i; [reflexivity|].
  cbn [indexes_from length seq map]. rewrite Z.add_0_r. f_equal.
  rewrite IH, <- seq_shift, map_map. apply map_ext. intros j. lia.
Qed.

Lemma indexes_from_zero {A} (l : list A) :
  indexes_from 0 l = map Z.of_nat (seq 0 (length l)).
Proof. rewrite indexes_from_seq. apply map_ext. intros j. lia. Qed.

Lemma map_throwing_all {A B} (f : A -> completion B) l l' :
  Forall2 (fun x y => f x = Return y) l l' -> map_throwing f l = Return l'.
Proof.
  induction 1 as [|x y l l' Hx _ IH]; [reflexivity|].
  cbn [map_throwing]. rewrite Hx. cbn [bind]. rewrite IH. reflexivity.
Qed.

Lemma map_throwing_first_failure {A B} (f : A -> completion B) pre bad post e :
  Forall (fun x => exists y, f x = Return y) pre ->
  f bad = Throw e ->
  map_throwing f (pre ++ bad :: post) = Throw e.
Proof.
  induction 1 as [|x pre [y Hx] _ IH]; intros Hbad.
  - cbn [app map_throwing]. rewrite Hbad. reflexivity.
  - cbn [app map_throwing]. rewrite Hx. cbn [bind]. rewrite (IH Hbad). reflexivity.
Qed.

Section SignerObjectProperties.

Variable ToNumber_other : js_value -> completion js_number.
Variable Transaction : Type.
Variable makeBasicAccountTransactionSigner :
  jsstring -> bytes -> TransactionSigner Transaction.
Variable decodeUnsignedTransaction : bytes -> completion Transaction.

Local Abbreviation createSigner :=
  (createWeb3AuthSigner ToNumber_other (TransactionSigner Transaction)
     makeBasicAccountTransactionSigner).
Local Abbreviation createObject :=
  (createWeb3AuthSignerObject ToNumber_other Transaction
     makeBasicAccountTransactionSigner decodeUnsignedTransaction).
Local Abbreviation createMultiSig :=
  (createWeb3AuthMultiSigSigner ToNumber_other Transaction
     makeBasicAccountTransactionSigner).

(** X20. The signer object and the multisig bundle are built exactly
    when [createWeb3AuthSigner] builds a signer, and fail with its error
    otherwise: [InvalidSecretKeyType] for a secret key that is neither a
    [Uint8Array] nor an array, and for an array what the conversion of
    its elements threw. The object's [sign] first decodes every blob, in order:
    the first decoding error is thrown as it is, without the signer being
    called; when all decode, the signer is called once with all the
    transactions and the indexes [0 .. n-1]. *)
Theorem createWeb3AuthSignerObject_sign account :
  match createSigner account with
  | Return signerFn =>
      exists object,
        createObject account = Return object /\
        sender object = address account /\
        createMultiSig account
        = Return {| msig_signer := signerFn;
                    msig_sender := address account;
                    msig_account := account |} /\
        (forall transactions txns,
            Forall2 (fun b t => decodeUnsignedTransaction b = Return t)
              transactions txns ->
            sign object transactions
            = signerFn txns (map Z.of_nat (seq 0 (length transactions)))) /\
        (forall pre bad post e,
            Forall (fun b => exists t, decodeUnsignedTransaction b = Return t) pre ->
            decodeUnsignedTransaction bad = Throw e ->
            sign object (pre ++ bad :: post) = Throw e)
  | Throw e =>
      ((e = InvalidSecretKeyType /\
        instanceof_Uint8Array (secretKey account) = None /\
        Array_isArray (secretKey account) = None) \/
       (exists l, secretKey account = VArray l /\
                  Uint8Array_from ToNumber_other l = Throw e)) /\
      createObject account = Throw e /\ createMultiSig account = Throw e
  end.
Proof.
  unfold createWeb3AuthSignerObject, createWeb3AuthMultiSigSigner.
  destruct (createSigner account) as [signerFn|e] eqn:Hs.
  - cbn [bind]. eexists. split; [reflexivity|]. split; [reflexivity|].
    split; [reflexivity|]. cbn [sign]. split.
    + intros transactions txns H.
      rewrite (map_throwing_all _ _ _ H). cbn [bind].
      rewrite indexes_from_zero, (Forall2_length H).
      destruct (signerFn txns _); reflexivity.
    + intros pre bad post e Hpre Hbad.
      rewrite (map_throwing_first_failure _ _ _ _ _ Hpre Hbad). reflexivity.
  - cbn [bind]. split; [|split; reflexivity].
    unfold createWeb3AuthSigner, bind in Hs.
    destruct (secretKey account) as [| | | | | |l| | |] eqn:Hk;
      cbn [instanceof_Uint8Array Array_isArray] in Hs;
      try (left; repeat split; congruence); try discriminate.
    right. exists l. split; [reflexivity|].
    destruct (Uint8Array_from ToNumber_other l); [discriminate | congruence].
Qed.

End SignerObjectProperties.

(** ** Account inspection *)

Lemma hex_byte_roundtrip x rest :
  Buffer_from_hex (hex_char (Byte.to_N x / 16) :: hex_char (Byte.to_N x mod 16) :: rest)
  = x :: Buffer_from_hex rest.
Proof. destruct x; reflexivity. Qed.

(** Decoding the hexadecimal form of bytes gives the bytes back. *)
Lemma Buffer_from_hex_toString_hex b : Buffer_from_hex (toString_hex b) = b.
Proof.
  induction b as [|x rest IH]; [reflexivity|].
  unfold toString_hex. cbn [flat_map app]. fold (toString_hex rest).
  rewrite hex_byte_roundtrip, IH. reflexivity.
Qed.

Lemma toString_hex_length b : length (toString_hex b) = (2 * length b)%nat.
Proof.
  induction b as [|x rest IH]; [reflexivity|].
  unfold toString_hex. cbn [flat_map app length]. fold (toString_hex rest). lia.
Qed.

Lemma hex_char_is_hex x :
  hex_digit (hex_char (Byte.to_N x / 16)) <> None /\
  hex_digit (hex_char (Byte.to_N x mod 16)) <> None.
Proof. destruct x; split; discriminate. Qed.

Lemma toString_hex_all_hex b : all_hex (toString_hex b).
Proof.
  induction b as [|x rest IH]; intros c Hc; [contradiction|].
  unfold toString_hex in Hc. cbn [flat_map app] in Hc. fold (toString_hex rest) in Hc.
  destruct (hex_char_is_hex x) as [H1 H2].
  destruct Hc as [<- | [<- | Hc]]; auto.
Qed.

Section AccountInspection.

Variable ToNumber_other : js_value -> completion js_number.
Variable decodeAddress : jsstring -> completion DecodedAddress.

Local Abbreviation getInfo :=
  (getWeb3AuthAccountInfo ToNumber_other decodeAddress).

(** A returned inspection record, field by field. *)
Lemma getWeb3AuthAccountInfo_returns account info :
  getInfo account = Return info ->
  exists decoded keyBytes,
    decodeAddress (address account) = Return decoded /\
    Buffer_from ToNumber_other (secretKey account) = Return keyBytes /\
    info = {| info_address := address account;
              publicKeyBytes := publicKey decoded;
              publicKeyBase64 := toString_base64 (publicKey decoded);
              secretKeyHex := toString_hex keyBytes;
              mnemonicPhrase := mnemonic account |}.
Proof.
  unfold getWeb3AuthAccountInfo, bind.
  destruct (decodeAddress (address account)) as [d|e]; [|discriminate].
  cbn [Buffer_from].
  destruct (Buffer_from ToNumber_other (secretKey account)) as [k|e];
    [|discriminate].
  intros H. injection H as <-. exists d, k. repeat split.
Qed.

(** X21. When [getWeb3AuthAccountInfo] returns, the address decoded and
    the secret key was a [Uint8Array], an array or a string;
    the [secretKeyHex] it reports has two digits per key byte and decodes
    (as [Buffer.from(hex, 'hex')] decodes it) to exactly the key bytes;
    address and mnemonic are the account's, and the public key bytes are
    those of the decoded address. *)
Theorem getWeb3AuthAccountInfo_fields account info :
  getInfo account = Return info ->
  exists decoded keyBytes,
    decodeAddress (address account) = Return decoded /\
    Buffer_from ToNumber_other (secretKey account) = Return keyBytes /\
    Buffer_from_hex (secretKeyHex info) = keyBytes /\
    length (secretKeyHex info) = (2 * length keyBytes)%nat /\
    publicKeyBytes info = publicKey decoded /\
    publicKeyBase64 info = toString_base64 (publicKey decoded) /\
    info_address info = address account /\
    mnemonicPhrase info = mnemonic account.
Proof.
  intros H.
  destruct (getWeb3AuthAccountInfo_returns account info H) as [d [k [Hd [Hk ->]]]].
  exists d, k. cbn [secretKeyHex publicKeyBytes publicKeyBase64 info_address
                    mnemonicPhrase].
  split; [exact Hd|]. split; [exact Hk|].
  split; [apply Buffer_from_hex_toString_hex|].
  split; [apply toString_hex_length|].
  repeat split.
Qed.

(** X22. The inspection helper and the signer factories disagree on
    string secret keys: with an address that decodes,
    [getWeb3AuthAccountInfo] accepts a string secret key and reports the
    hexadecimal form of its UTF-8 bytes, while [createWeb3AuthSigner]
    rejects the same account with [InvalidSecretKeyType]. *)
Theorem string_secret_key_inspected_not_signed
        (Signer : Type)
        (makeBasicAccountTransactionSigner : jsstring -> bytes -> Signer)
        account s decoded :
  secretKey account = VString s ->
  decodeAddress (address account) = Return decoded ->
  (exists info,
      getInfo account = Return info /\
      secretKeyHex info = toString_hex (flat_map utf8_of_code_unit s)) /\
  createWeb3AuthSigner ToNumber_other Signer makeBasicAccountTransactionSigner
    account
  = Throw InvalidSecretKeyType.
Proof.
  intros Hs Hd. unfold getWeb3AuthAccountInfo, createWeb3AuthSigner, bind.
  rewrite Hs, Hd. cbn. split; [eexists; split; reflexivity | reflexivity].
Qed.

End AccountInspection.

Section ExportImport.

Variable ToNumber_other : js_value -> completion js_number.
Variable secretKeyToMnemonic : bytes -> completion jsstring.
Variable mnemonicToSecretKey : jsstring -> completion Account.
Variable decodeAddress : jsstring -> completion DecodedAddress.
Variable publicKeyOfSeed : bytes -> bytes.
Variable encodeAddress : bytes -> jsstring.

Hypothesis mnemonic_of_seed :
  forall seed, length seed = 32%nat ->
               exists m, secretKeyToMnemonic seed = Return m.
Hypothesis keypair_of_mnemonic :
  forall seed m, length seed = 32%nat ->
    secretKeyToMnemonic seed = Return m ->
    mnemonicToSecretKey m
    = Return {| addr := encodeAddress (publicKeyOfSeed seed);
                sk := seed ++ publicKeyOfSeed seed |}.

Local Abbreviation getAccount :=
  (getAlgorandAccount secretKeyToMnemonic mnemonicToSecretKey).

(** X23. Export and import: the [secretKeyHex] that
    [getWeb3AuthAccountInfo] reports for a derived account, given back
    as key material by a provider, derives the same account again. *)
Theorem secretKeyHex_rederives_account provider provider' key account info :
  request provider "private_key" = Return (VString key) ->
  (32 <= length (Buffer_from_hex (strip_0x key)))%nat ->
  outcome (getAccount (Some provider)) = Return account ->
  getWeb3AuthAccountInfo ToNumber_other decodeAddress account = Return info ->
  request provider' "private_key" = Return (VString (secretKeyHex info)) ->
  getAccount (Some provider') = getAccount (Some provider).
Proof.
  intros Hreq Hlen Hacc Hinfo Hreq'.
  assert (Hseed : length (seed_of_key key) = 32%nat).
  { unfold seed_of_key. rewrite length_firstn. lia. }
  pose proof (getAlgorandAccount_steps secretKeyToMnemonic mnemonicToSecretKey
                provider key Hreq Hlen) as Ho.
  destruct (mnemonic_of_seed _ Hseed) as [m Hm].
  rewrite Hm, (keypair_of_mnemonic _ m Hseed Hm), Hacc in Ho. cbn [addr sk] in Ho.
  injection Ho as ->.
  destruct (getWeb3AuthAccountInfo_returns ToNumber_other decodeAddress _ _ Hinfo)
    as [d [k [_ [Hk Einfo]]]].
  cbn [secretKey Buffer_from] in Hk. injection Hk as <-.
  assert (Hhex : Buffer_from_hex (secretKeyHex info)
                 = seed_of_key key ++ publicKeyOfSeed (seed_of_key key)).
  { rewrite Einfo. apply Buffer_from_hex_toString_hex. }
  assert (Hl : length (secretKeyHex info)
               = (2 * (32 + length (publicKeyOfSeed (seed_of_key key))))%nat).
  { rewrite Einfo. cbn [secretKeyHex].
    rewrite toString_hex_length, length_app, Hseed. reflexivity. }
  assert (Hne : secretKeyHex info <> []).
  { intros E. rewrite E in Hl. cbn in Hl. lia. }
  assert (Hkne : key <> []).
  { intros ->. cbn in Hlen. lia. }
  assert (Hall : all_hex (secretKeyHex info)).
  { rewrite Einfo. apply toString_hex_all_hex. }
  apply (getAlgorandAccount_by_seed _ _ _ _ (secretKeyHex info) key);
    try assumption.
  unfold seed_of_key at 1.
  rewrite strip_0x_unprefixed by (apply hex_key_unprefixed; [assumption | lia]).
  rewrite Hhex. apply (proj1 (firstn_skipn_app _ _ 32%nat Hseed)).
Qed.

End ExportImport.

Lemma getWeb3AuthAccountInfo_fields_witness :
  exists decoded keyBytes,
    AddressSamples.decodeAddress "AB" = Return decoded /\
    Buffer_from Samples.ToNumber_other
      (VArray [VNumber (integer 1); VNumber (integer 255);
               VNumber (integer 256)]) = Return keyBytes /\
    Buffer_from_hex "01ff00" = keyBytes /\
    length (list_ascii_of_string "01ff00") = (2 * length keyBytes)%nat /\
    [Byte.x41; Byte.x42] = publicKey decoded /\
    list_ascii_of_string "QUI=" = toString_base64 (publicKey decoded) /\
    list_ascii_of_string "AB" = list_ascii_of_string "AB" /\
    list_ascii_of_string "word" = list_ascii_of_string "word".
Proof.
  apply (getWeb3AuthAccountInfo_fields Samples.ToNumber_other
           AddressSamples.decodeAddress
           {| address := "AB"; mnemonic := "word";
              secretKey := VArray [VNumber (integer 1); VNumber (integer 255);
                                   VNumber (integer 256)] |}
           {| info_address := "AB";
              publicKeyBytes := [Byte.x41; Byte.x42];
              publicKeyBase64 := "QUI=";
              secretKeyHex := "01ff00";
              mnemonicPhrase := "word" |}).
  reflexivity.
Defined.

Lemma string_secret_key_inspected_not_signed_witness :
  (exists info,
      getWeb3AuthAccountInfo Samples.ToNumber_other AddressSamples.decodeAddress
        {| address := "AB"; mnemonic := "word"; secretKey := VString "key" |}
      = Return info /\
      secretKeyHex info = toString_hex (flat_map utf8_of_code_unit "key")) /\
  createWeb3AuthSigner Samples.ToNumber_other (jsstring * bytes) pair
    {| address := "AB"; mnemonic := "word"; secretKey := VString "key" |}
  = Throw InvalidSecretKeyType.
Proof.
  apply (string_secret_key_inspected_not_signed Samples.ToNumber_other
           AddressSamples.decodeAddress (jsstring * bytes)%type pair
           {| address := "AB"; mnemonic := "word"; secretKey := VString "key" |}
           "key" {| publicKey := [Byte.x41; Byte.x42]; checksum := [] |});
    reflexivity.
Defined.

Lemma secretKeyHex_rederives_account_witness :
  getAlgorandAccount StandIn.secretKeyToMnemonic StandIn.mnemonicToSecretKey
    (Some (Samples.answering
             (VString (toString_hex (seed_of_key StandIn.sample_key
                                     ++ seed_of_key StandIn.sample_key)))))
  = getAlgorandAccount StandIn.secretKeyToMnemonic StandIn.mnemonicToSecretKey
      (Some (StandIn.provider StandIn.sample_key)).
Proof.
  eapply (secretKeyHex_rederives_account Samples.ToNumber_other
            StandIn.secretKeyToMnemonic StandIn.mnemonicToSecretKey
            AddressSamples.decodeAny
            StandIn.publicKeyOfSeed StandIn.encodeAddress
            standin_mnemonic_of_seed standin_keypair_of_mnemonic
            (StandIn.provider StandIn.sample_key) _ StandIn.sample_key).
  - reflexivity.
  - vm_compute. lia.
  - reflexivity.
  - reflexivity.
  - reflexivity.
Defined.

(** ** [ellipseAddress] *)

Lemma ellipseAddress_short address startChars endChars :
  Z.of_nat (length address) <= startChars + endChars ->
  ellipseAddress address startChars endChars = address.
Proof.
  intros H. unfold ellipseAddress.
  destruct (Z.leb_spec (Z.of_nat (length address)) (startChars + endChars)); [|lia].
  rewrite orb_true_r. reflexivity.
Qed.

(** The long case of [ellipseAddress]. *)
Lemma ellipseAddress_long_eq address startChars endChars :
  0 <= startChars -> 1 <= endChars ->
  startChars + endChars < Z.of_nat (length address) ->
  ellipseAddress address startChars endChars
  = firstn (Z.to_nat startChars) address ++ "..."
    ++ skipn (length address - Z.to_nat endChars) address.
Proof.
  intros Hs He Hl. unfold ellipseAddress.
  destruct (Z.leb_spec (Z.of_nat (length address)) (startChars + endChars)); [lia|].
  destruct address as [|c t]; [cbn in Hl; lia|]. cbn [orb].
  unfold slice, slice_from.
  rewrite rel_index_zero, rel_index_neg, Nat.sub_0_r by assumption.
  cbn [skipn]. f_equal. unfold rel_index.
  destruct (Z.ltb_spec startChars 0); [lia|].
  rewrite Nat.min_l by lia. reflexivity.
Qed.

(** X24. On an address longer than [startChars + endChars] (with
    [startChars >= 0] and [endChars >= 1]) the result is the first
    [startChars] characters, three dots and the last [endChars]
    characters: [startChars + 3 + endChars] characters in all, which is
    shorter than the address only when the address has more than that. *)
Theorem ellipseAddress_long address startChars endChars :
  0 <= startChars -> 1 <= endChars ->
  startChars + endChars < Z.of_nat (length address) ->
  ellipseAddress address startChars endChars
  = firstn (Z.to_nat startChars) address ++ "..."
    ++ skipn (length address - Z.to_nat endChars) address /\
  Z.of_nat (length (ellipseAddress address startChars endChars))
  = startChars + 3 + endChars.
Proof.
  intros Hs He Hl.
  pose proof (ellipseAddress_long_eq address startChars endChars Hs He Hl) as E.
  split; [exact E|].
  rewrite E, !length_app, length_firstn, length_skipn.
  cbn [length list_ascii_of_string]. lia.
Qed.

Lemma ellipseAddress_long_witness :
  ellipseAddress "ABCDEFGHIJK" 6 4
  = firstn (Z.to_nat 6) (list_ascii_of_string "ABCDEFGHIJK") ++ "..."
    ++ skipn (length (list_ascii_of_string "ABCDEFGHIJK") - Z.to_nat 4)
         (list_ascii_of_string "ABCDEFGHIJK") /\
  Z.of_nat (length (ellipseAddress "ABCDEFGHIJK" 6 4)) = 6 + 3 + 4.
Proof. apply ellipseAddress_long; cbn; lia. Defined.

(** X25. Shortening twice is shortening once (for [startChars >= 0] and
    [endChars >= 1]): the result of [ellipseAddress] is a fixed point. *)
Theorem ellipseAddress_idempotent address startChars endChars :
  0 <= startChars -> 1 <= endChars ->
  ellipseAddress (ellipseAddress address startChars endChars) startChars endChars
  = ellipseAddress address startChars endChars.
Proof.
  intros Hs He.
  destruct (Z.le_gt_cases (Z.of_nat (length address)) (startChars + endChars))
    as [Hle|Hgt].
  - rewrite (ellipseAddress_short address) by assumption.
    apply ellipseAddress_short. assumption.
  - pose proof (ellipseAddress_long_eq address startChars endChars Hs He Hgt) as E.
    assert (Hp : length (firstn (Z.to_nat startChars) address) = Z.to_nat startChars).
    { rewrite length_firstn. lia. }
    assert (Hq : length (skipn (length address - Z.to_nat endChars) address)
                 = Z.to_nat endChars).
    { rewrite length_skipn. lia. }
    set (r := ellipseAddress address startChars endChars) in *.
    assert (L : length r = (Z.to_nat startChars + 3 + Z.to_nat endChars)%nat).
    { rewrite E, !length_app, Hp, Hq. cbn [length list_ascii_of_string]. lia. }
    rewrite (ellipseAddress_long_eq r startChars endChars Hs He) by lia.
    assert (F : firstn (Z.to_nat startChars) r = firstn (Z.to_nat startChars) address).
    { rewrite E. apply (proj1 (firstn_skipn_app _ _ _ Hp)). }
    assert (S : skipn (length r - Z.to_nat endChars) r
                = skipn (length address - Z.to_nat endChars) address).
    { replace (length r - Z.to_nat endChars)%nat with (Z.to_nat startChars + 3)%nat by lia.
      rewrite E, app_assoc. apply firstn_skipn_app.
      rewrite length_app, Hp. reflexivity. }
    rewrite F, S. symmetry. exact E.
Qed.

Lemma ellipseAddress_idempotent_witness :
  ellipseAddress (ellipseAddress "ABCDEFGHIJKLMNOPQRSTUVWXYZ" 6 4) 6 4
  = ellipseAddress "ABCDEFGHIJKLMNOPQRSTUVWXYZ" 6 4.
Proof. apply ellipseAddress_idempotent; lia. Defined.

(** ** The cached Web3Auth instance *)

Lemma get_property_fold o k : forall found,
  fold_left (fun found p => if key_eqb (fst p) k then snd p else found) o found
  = if has_key o k then get_property o k else found.
Proof.
  unfold get_property, has_key.
  induction o as [|[k' v] rest IH]; intros found; [reflexivity|].
  cbn [fold_left existsb fst snd].
  rewrite (IH (if key_eqb k' k then v else found)),
    (IH (if key_eqb k' k then v else CUndefined)).
  destruct (existsb _ rest).
  - rewrite orb_true_r. reflexivity.
  - rewrite orb_false_r. destruct (key_eqb k' k); reflexivity.
Qed.

(** A later object of a spread wins on the keys it has. *)
Lemma get_property_app a b k :
  get_property (a ++ b) k = if has_key b k then get_property b k else get_property a k.
Proof.
  unfold get_property at 1. rewrite fold_left_app. apply get_property_fold.
Qed.

Section Web3AuthSessionProperties.

Variable CHAIN_NAMESPACES_OTHER : cfg_value.

(** X26. A property of the sanitized chain configuration is the user's
    whenever the user's object has that key, even when the user's value
    is [undefined] (the default is then lost), and the default
    otherwise; except [chainNamespace], which is the user's value when
    that is not [null] or [undefined] and [CHAIN_NAMESPACES.OTHER]
    otherwise. The sanitized UI configuration follows the same rule
    without the exception. *)
Theorem sanitized_config_lookup chainConfig uiConfig k :
  get_property (sanitizeChainConfig CHAIN_NAMESPACES_OTHER (Some chainConfig)) k
  = (if key_eqb "chainNamespace" k
     then cfg_or (get_property chainConfig "chainNamespace") CHAIN_NAMESPACES_OTHER
     else if has_key chainConfig k then get_property chainConfig k
          else get_property (DEFAULT_ALGORAND_CHAIN_CONFIG CHAIN_NAMESPACES_OTHER) k) /\
  get_property (sanitizeUiConfig (Some uiConfig)) k
  = (if has_key uiConfig k then get_property uiConfig k
     else get_property DEFAULT_UI_CONFIG k).
Proof.
  split.
  - unfold sanitizeChainConfig. rewrite app_assoc, get_property_app.
    cbn [has_key existsb fst]. rewrite orb_false_r.
    destruct (key_eqb "chainNamespace" k) eqn:E.
    + unfold key_eqb in E.
      destruct (list_eq_dec ascii_dec (list_ascii_of_string "chainNamespace") k)
        as [<-|]; [|discriminate].
      unfold get_property at 1. cbn [fold_left fst snd].
      unfold key_eqb.
      destruct (list_eq_dec ascii_dec _ _); [reflexivity | congruence].
    + apply get_property_app.
  - unfold sanitizeUiConfig. apply get_property_app.
Qed.

Variable SAPPHIRE_DEVNET : cfg_value.
Variable Web3Auth : Type.
Variable PrivateKeyProvider : Type.
Variable UserInfo : Type.
Variable Provider : Type.
Variable new_CommonPrivateKeyProvider : js_object -> completion PrivateKeyProvider.
Variable new_Web3Auth :
  Web3AuthOptions PrivateKeyProvider -> completion Web3Auth.
Variable initModal : Web3Auth -> Web3Auth * completion unit.
Variable logout : Web3Auth -> Web3Auth * completion unit.
Variable getUserInfo : Web3Auth -> Web3Auth * completion UserInfo.
Variable status : Web3Auth -> jsstring.
Variable provider : Web3Auth -> option Provider.

Local Abbreviation init :=
  (initWeb3Auth CHAIN_NAMESPACES_OTHER SAPPHIRE_DEVNET Web3Auth PrivateKeyProvider
     new_CommonPrivateKeyProvider new_Web3Auth initModal).
Local Abbreviation build :=
  (new_instance CHAIN_NAMESPACES_OTHER SAPPHIRE_DEVNET Web3Auth PrivateKeyProvider
     new_CommonPrivateKeyProvider new_Web3Auth).
Local Abbreviation userInfo := (getWeb3AuthUserInfo Web3Auth UserInfo getUserInfo status).
Local Abbreviation logoutFrom := (logoutFromWeb3Auth Web3Auth logout).

(** X27. [logoutFromWeb3Auth] always forgets the instance, also when the
    library's [logout] throws (the error is passed on, not swallowed).
    After it there is no provider, no connection and no user
    information, and the next [initWeb3Auth] builds a new instance from
    the configuration it is given. *)
Theorem logout_always_clears web3authInstance config :
  let after := fst (logoutFrom web3authInstance) in
  after = None /\
  (forall instance, web3authInstance = Some instance ->
                    snd (logoutFrom web3authInstance) = snd (logout instance)) /\
  getWeb3AuthProvider Web3Auth Provider provider after = None /\
  isWeb3AuthConnected Web3Auth status after = false /\
  userInfo after = (None, Return None) /\
  init config after
  = match build config with
    | Throw e => (None, Throw e)
    | Return instance =>
        (Some (fst (initModal instance)),
         match snd (initModal instance) with
         | Return _ => Return (fst (initModal instance))
         | Throw e => Throw e
         end)
    end.
Proof.
  cbv zeta.
  assert (E : fst (logoutFrom web3authInstance) = None).
  { unfold logoutFromWeb3Auth. destruct web3authInstance as [i|]; [|reflexivity].
    destruct (logout i). reflexivity. }
  rewrite E. split; [reflexivity|]. split.
  - intros i ->. unfold logoutFromWeb3Auth. destruct (logout i). reflexivity.
  - repeat split. unfold initWeb3Auth.
    destruct (build config) as [i|e]; [|reflexivity].
    destruct (initModal i) as [i' [u|e]]; reflexivity.
Qed.

(** X28. A failed initialisation stays cached: when [initModal] throws,
    [initWeb3Auth] throws too, but the instance is already stored; the
    next [initWeb3Auth], with any configuration, returns that instance
    without building anything and without calling [initModal] again. *)
Theorem failed_init_is_cached config config' instance instance' e :
  build config = Return instance ->
  initModal instance = (instance', Throw e) ->
  init config None = (Some instance', Throw e) /\
  init config' (fst (init config None)) = (Some instance', Return instance').
Proof.
  intros Hb Hi. unfold initWeb3Auth. rewrite Hb, Hi. split; reflexivity.
Qed.

(** X29. [getWeb3AuthUserInfo] never throws: it answers with the user
    information exactly when there is an instance whose status is
    [connected] and the library's [getUserInfo] returns; it answers
    [null] without calling the library when there is no instance or no
    connection, and [null] when the library throws. *)
Theorem getWeb3AuthUserInfo_never_throws web3authInstance :
  exists answer,
    snd (userInfo web3authInstance) = Return answer /\
    (forall info,
        answer = Some info <->
        exists instance,
          web3authInstance = Some instance /\
          status instance = list_ascii_of_string "connected" /\
          snd (getUserInfo instance) = Return info) /\
    (isWeb3AuthConnected Web3Auth status web3authInstance = false ->
     userInfo web3authInstance = (web3authInstance, Return None)).
Proof.
  unfold getWeb3AuthUserInfo, isWeb3AuthConnected.
  destruct web3authInstance as [i|].
  - unfold key_eqb.
    destruct (list_eq_dec ascii_dec (status i) (list_ascii_of_string "connected"))
      as [Hc|Hn]; cbn [negb].
    + destruct (getUserInfo i) as [i' [u|e]] eqn:Hu; cbn [snd try_catch bind].
      * exists (Some u). split; [reflexivity|]. split; [|discriminate].
        intros info. split.
        -- intros H. injection H as <-. exists i. rewrite Hu. auto.
        -- intros [i0 [E [_ H]]]. injection E as <-. rewrite Hu in H.
           cbn in H. congruence.
      * exists None. split; [reflexivity|]. split; [|discriminate].
        intros info. split; [discriminate|].
        intros [i0 [E [_ H]]]. injection E as <-. rewrite Hu in H. discriminate H.
    + exists None. split; [reflexivity|]. split; [|reflexivity].
      intros info. split; [discriminate|].
      intros [i0 [E [H _]]]. injection E as <-. contradiction.
  - exists None. split; [reflexivity|]. split; [|reflexivity].
    intros info. split; [discriminate|]. intros [i0 [E _]]. discriminate.
Qed.

End Web3AuthSessionProperties.

Lemma failed_init_is_cached_witness :
  initWeb3Auth (CString "other") (CString "sapphire_devnet") jsstring js_object
    SessionSamples.new_CommonPrivateKeyProvider SessionSamples.new_Web3Auth
    SessionSamples.initModal (SessionSamples.config "first") None
  = (Some (list_ascii_of_string "errored"),
     Throw (JsError "modal could not be shown")) /\
  initWeb3Auth (CString "other") (CString "sapphire_devnet") jsstring js_object
    SessionSamples.new_CommonPrivateKeyProvider SessionSamples.new_Web3Auth
    SessionSamples.initModal (SessionSamples.config "second")
    (fst (initWeb3Auth (CString "other") (CString "sapphire_devnet") jsstring
            js_object SessionSamples.new_CommonPrivateKeyProvider
            SessionSamples.new_Web3Auth SessionSamples.initModal
            (SessionSamples.config "first") None))
  = (Some (list_ascii_of_string "errored"),
     Return (list_ascii_of_string "errored")).
Proof.
  apply (failed_init_is_cached (CString "other") (CString "sapphire_devnet")
           jsstring js_object SessionSamples.new_CommonPrivateKeyProvider
           SessionSamples.new_Web3Auth SessionSamples.initModal
           (SessionSamples.config "first") (SessionSamples.config "second")
           (list_ascii_of_string "not_ready")); reflexivity.
Defined.

(** ** [resolveBackendBase] *)

Example resolveBackendBase_samples :
  resolveBackendBase (Some (list_ascii_of_string " my-backend.vercel.app/ ")) "localhost:5173"
  = list_ascii_of_string "https://my-backend.vercel.app" /\
  resolveBackendBase (Some (list_ascii_of_string "http://10.0.0.1:3001")) "localhost:5173"
  = list_ascii_of_string "http://10.0.0.1:3001" /\
  resolveBackendBase None "abc-5173.app.github.dev"
  = list_ascii_of_string "https://abc-3001.app.github.dev" /\
  resolveBackendBase None "abc.app.github.dev"
  = list_ascii_of_string "https://abc.app.github.dev" /\
  resolveBackendBase (Some (list_ascii_of_string "  ")) "localhost:5173"
  = list_ascii_of_string "http://localhost:3001".
Proof. repeat split. Qed.

Lemma key_eqb_refl s : key_eqb s s = true.
Proof. unfold key_eqb. destruct (list_eq_dec ascii_dec s s); congruence. Qed.

Lemma endsWith_app s suffix : endsWith (s ++ suffix) suffix = true.
Proof.
  unfold endsWith. rewrite length_app.
  replace (length s + length suffix - length suffix)%nat with (length s) by lia.
  rewrite skipn_app, skipn_all, Nat.sub_diag. cbn [skipn app].
  rewrite key_eqb_refl, andb_true_r. apply Nat.leb_le. lia.
Qed.

Lemma all_digits_rev s : all_digits s -> all_digits (rev s).
Proof.
  unfold all_digits. rewrite !forallb_forall. intros H c Hc.
  apply H. apply in_rev. exact Hc.
Qed.

(** X30. [resolveBackendBase] always returns an absolute URL: whatever
    the environment variable and the host, the result starts with
    [http://] or [https://]. In a Codespaces host, with the variable
    unset or blank, the port number in front of [.app.github.dev]
    becomes 3001. *)
Theorem resolveBackendBase_absolute :
  (forall VITE_API_URL host,
      startsWith (resolveBackendBase VITE_API_URL host) "http://"
      || startsWith (resolveBackendBase VITE_API_URL host) "https://" = true) /\
  (forall VITE_API_URL name port,
      option_map trim VITE_API_URL = None \/ option_map trim VITE_API_URL = Some [] ->
      port <> [] -> all_digits port ->
      resolveBackendBase VITE_API_URL (name ++ "-" ++ port ++ codespaces_suffix)
      = "https://" ++ name ++ "-3001.app.github.dev").
Proof.
  split.
  - intros env host. unfold resolveBackendBase.
    destruct (option_map trim env) as [[|c e]|].
    + destruct (endsWith host codespaces_suffix); reflexivity.
    + destruct (startsWith (remove_trailing_slash (c :: e)) "http://") eqn:H1.
      * cbn [orb]. rewrite H1. reflexivity.
      * cbn [orb].
        destruct (startsWith (remove_trailing_slash (c :: e)) "https://") eqn:H2.
        -- rewrite H1, H2. reflexivity.
        -- reflexivity.
    + destruct (endsWith host codespaces_suffix); reflexivity.
  - intros env name port Henv Hne Hd.
    assert (Hhost : name ++ "-" ++ port ++ codespaces_suffix
                    = (name ++ "-"%char :: port) ++ codespaces_suffix).
    { cbn [list_ascii_of_string app]. rewrite <- app_assoc. reflexivity. }
    assert (E : endsWith (name ++ "-" ++ port ++ codespaces_suffix) codespaces_suffix
                = true).
    { rewrite Hhost. apply endsWith_app. }
    assert (R : replace_codespaces_port (name ++ "-" ++ port ++ codespaces_suffix)
                = name ++ "-3001.app.github.dev").
    { assert (B : firstn (length (name ++ "-" ++ port ++ codespaces_suffix)
                          - length codespaces_suffix)
                    (name ++ "-" ++ port ++ codespaces_suffix)
                  = name ++ "-"%char :: port).
      { rewrite Hhost, length_app.
        replace (length (name ++ "-"%char :: port) + length codespaces_suffix
                 - length codespaces_suffix)%nat
          with (length (name ++ "-"%char :: port)) by lia.
        rewrite firstn_app, firstn_all, Nat.sub_diag. cbn [firstn].
        apply app_nil_r. }
      unfold replace_codespaces_port. rewrite E, B.
      rewrite rev_app_distr. cbn [rev]. rewrite <- app_assoc. cbn [app].
      rewrite skip_digits_stop by (apply all_digits_rev, Hd || reflexivity).
      assert (L : (length ("-"%char :: rev name)
                   <? length (name ++ "-"%char :: port))%nat = true).
      { apply Nat.ltb_lt. rewrite length_app. cbn [length]. rewrite length_rev.
        destruct port; [congruence | cbn [length]; lia]. }
      rewrite L, rev_involutive.
      change (Ascii.eqb "-" "-") with true. reflexivity. }
    unfold resolveBackendBase.
    destruct Henv as [-> | ->]; rewrite E, R; reflexivity.
Qed.
